(** * Network ping monitor (rkt/ping/network_ping.py)

    A shallow embedding of the prober: [ping_single_ip], [ping_multiple_ips],
    [ping_network_range], [continuous_monitor], [print_results],
    [validate_ip] and the target loop of [main].

    Conventions of the embedding.
    - Python [str] is [string]; the text handled here is ASCII, the three
      status marks of the table are kept as their UTF-8 bytes and measured
      in code points by [py_len].
    - A Python exception is a value [exn] (class and message); a call that
      may raise returns [res A].  [try]/[except] is [except_].
    - A Python [float] is [pyfloat]: an exact rational, an infinity or nan.
      Binary64 rounding of arithmetic is not modelled; signs, comparisons
      with zero and the decimal text of a value are what the program uses.
    - Everything the program asks of the outside world (the ping process,
      the wall clock, the time stamp, the order in which futures complete)
      is an explicit argument.
    - The [ipaddress] module is the one of CPython 3.11.
    - [export_results], the reading of the address file and the parsing of
      the command line are outside the embedding; of a call that raises, the
      lines printed before are not kept. *)

From Stdlib Require Import String Ascii List ZArith Zbitwise QArith Qround.
From Stdlib Require Import Lia Lqa Bool.
From Stdlib Require Import Permutation Sorted.
From Stdlib Require DecimalString HexadecimalString.
Import ListNotations.

Local Open Scope string_scope.
Local Open Scope Z_scope.

(** ** Exceptions *)

Module Exn.

Inductive exn_class : Type :=
| BaseException | Exception | KeyboardInterrupt
| SubprocessError | TimeoutExpired
| ValueError | AddressValueError | NetmaskValueError | UnicodeDecodeError
| LookupError | IndexError
| TypeError
| OSError | FileNotFoundError | PermissionError.

Definition exn_class_eqb (c d : exn_class) : bool :=
  match c, d with
  | BaseException, BaseException | Exception, Exception
  | KeyboardInterrupt, KeyboardInterrupt
  | SubprocessError, SubprocessError | TimeoutExpired, TimeoutExpired
  | ValueError, ValueError | AddressValueError, AddressValueError
  | NetmaskValueError, NetmaskValueError
  | UnicodeDecodeError, UnicodeDecodeError
  | LookupError, LookupError | IndexError, IndexError
  | TypeError, TypeError
  | OSError, OSError | FileNotFoundError, FileNotFoundError
  | PermissionError, PermissionError => true
  | _, _ => false
  end.

(** The base class of each class ([None] at the root). *)
Definition base (c : exn_class) : option exn_class :=
  match c with
  | BaseException => None
  | Exception | KeyboardInterrupt => Some BaseException
  | SubprocessError | ValueError | LookupError | TypeError | OSError =>
      Some Exception
  | TimeoutExpired => Some SubprocessError
  | AddressValueError | NetmaskValueError | UnicodeDecodeError =>
      Some ValueError
  | IndexError => Some LookupError
  | FileNotFoundError | PermissionError => Some OSError
  end.

Fixpoint issubclass_fuel (n : nat) (c d : exn_class) : bool :=
  exn_class_eqb c d ||
  match n with
  | O => false
  | S n' => match base c with
            | Some b => issubclass_fuel n' b d
            | None => false
            end
  end.

(** The hierarchy is four levels deep. *)
Definition issubclass : exn_class -> exn_class -> bool := issubclass_fuel 4.

Record exn : Type := mk_exn { exn_cls : exn_class; exn_msg : string }.

Definition isinstance (e : exn) (c : exn_class) : bool :=
  issubclass (exn_cls e) c.

End Exn.
Import Exn.

(** ** Calls that may raise *)

Inductive res (A : Type) : Type :=
| Ok (a : A)
| Raise (e : exn).
Arguments Ok {A} a.
Arguments Raise {A} e.

Definition bind {A B : Type} (m : res A) (k : A -> res B) : res B :=
  match m with
  | Ok a => k a
  | Raise e => Raise e
  end.

Notation "x <- m ;; k" := (bind m (fun x => k))
  (at level 61, m at next level, right associativity).

Definition raise {A : Type} (c : exn_class) (msg : string) : res A :=
  Raise (mk_exn c msg).

(** [try: m  except (classes) as e: h e]. *)
Definition except_ {A : Type} (classes : list exn_class) (m : res A)
    (h : exn -> res A) : res A :=
  match m with
  | Ok a => Ok a
  | Raise e => if existsb (isinstance e) classes then h e else Raise e
  end.

(** [l[i]] for a non-negative literal index. *)
Definition index {A : Type} (l : list A) (i : nat) : res A :=
  match nth_error l i with
  | Some a => Ok a
  | None => raise IndexError "list index out of range"
  end.

(** ** Python string operations *)

Module PyStr.

Definition is_digit (c : ascii) : bool :=
  let n := nat_of_ascii c in (48 <=? n)%nat && (n <=? 57)%nat.

Definition digit_val (c : ascii) : Z := Z.of_nat (nat_of_ascii c) - 48.

(** [str.isspace] on the ASCII range. *)
Definition is_space (c : ascii) : bool :=
  let n := nat_of_ascii c in
  ((9 <=? n)%nat && (n <=? 13)%nat) || ((28 <=? n)%nat && (n <=? 32)%nat).

Fixpoint lstrip (s : string) : string :=
  match s with
  | String c s' => if is_space c then lstrip s' else s
  | EmptyString => EmptyString
  end.

Fixpoint rstrip (s : string) : string :=
  match s with
  | String c s' =>
      match rstrip s' with
      | EmptyString => if is_space c then EmptyString else String c EmptyString
      | r => String c r
      end
  | EmptyString => EmptyString
  end.

Definition strip (s : string) : string := rstrip (lstrip s).

Definition startswith (p s : string) : bool := String.prefix p s.

(** [sub in s]. *)
Fixpoint contains (sub s : string) : bool :=
  startswith sub s ||
  match s with
  | String _ s' => contains sub s'
  | EmptyString => false
  end.

(** [s.split(sep)] for a non-empty [sep]: the pieces between the
    non-overlapping occurrences of [sep], found from the left.  [skip] counts
    the characters of a separator still to be passed over, [cur] is the piece
    being read, reversed. *)
Fixpoint split_go (sep : string) (skip : nat) (cur : list ascii) (s : string)
    : list string :=
  match s with
  | EmptyString => [string_of_list_ascii (rev cur)]
  | String c s' =>
      match skip with
      | S k => split_go sep k cur s'
      | O =>
          if startswith sep s
          then string_of_list_ascii (rev cur)
               :: split_go sep (String.length sep - 1) [] s'
          else split_go sep O (c :: cur) s'
      end
  end.

Definition split (sep s : string) : list string := split_go sep O [] s.

(** [s.replace(old, new)] for a non-empty [old]. *)
Fixpoint replace_go (old new : string) (skip : nat) (s : string) : string :=
  match s with
  | EmptyString => EmptyString
  | String c s' =>
      match skip with
      | S k => replace_go old new k s'
      | O =>
          if startswith old s
          then new ++ replace_go old new (String.length old - 1) s'
          else String c (replace_go old new O s')
      end
  end.

Definition replace (old new s : string) : string := replace_go old new O s.

Fixpoint join (sep : string) (l : list string) : string :=
  match l with
  | [] => ""
  | [x] => x
  | x :: rest => x ++ sep ++ join sep rest
  end.

Definition lower_char (c : ascii) : ascii :=
  let n := nat_of_ascii c in
  if (65 <=? n)%nat && (n <=? 90)%nat then ascii_of_nat (n + 32) else c.

Definition upper_char (c : ascii) : ascii :=
  let n := nat_of_ascii c in
  if (97 <=? n)%nat && (n <=? 122)%nat then ascii_of_nat (n - 32) else c.

Fixpoint map_chars (f : ascii -> ascii) (s : string) : string :=
  match s with
  | String c s' => String (f c) (map_chars f s')
  | EmptyString => EmptyString
  end.

Definition lower : string -> string := map_chars lower_char.
Definition upper : string -> string := map_chars upper_char.

(** [len(s)] in code points: the bytes that do not continue a UTF-8
    sequence. *)
Fixpoint py_len (s : string) : nat :=
  match s with
  | String c s' =>
      let n := nat_of_ascii c in
      (if (128 <=? n)%nat && (n <? 192)%nat then 0 else 1) + py_len s'
  | EmptyString => 0
  end.

Fixpoint spaces (n : nat) : string :=
  match n with
  | O => ""
  | S n' => String " " (spaces n')
  end.

(** [f"{s:<w}"] and [f"{s:>w}"]. *)
Definition ljust (w : nat) (s : string) : string := s ++ spaces (w - py_len s).
Definition rjust (w : nat) (s : string) : string := spaces (w - py_len s) ++ s.

(** [s[:n]] on ASCII text. *)
Fixpoint take (n : nat) (s : string) : string :=
  match n, s with
  | S n', String c s' => String c (take n' s')
  | _, _ => EmptyString
  end.

(** [str(n)] for an integer. *)
Definition str_of_Z (n : Z) : string :=
  DecimalString.NilZero.string_of_int (Z.to_int n).
Definition str_of_nat (n : nat) : string := str_of_Z (Z.of_nat n).

End PyStr.
Import PyStr.

(** ** Floats *)

Module PyFloat.

Inductive pyfloat : Type :=
| Fin (q : Q)
| Inf (negative : bool)
| NaN.

(** [bool(x)]: every float but zero is true, nan included. *)
Definition truthy (x : pyfloat) : bool :=
  match x with
  | Fin q => negb (Qeq_bool q 0)
  | Inf _ | NaN => true
  end.


(** The integer nearest to [q], ties to the even one. *)
Definition round_half_even (q : Q) : Z :=
  let f := Qfloor q in
  let r := (q - inject_Z f)%Q in
  match Qcompare r (1 # 2) with
  | Lt => f
  | Gt => f + 1
  | Eq => if Z.even f then f else f + 1
  end.

(** [round(x, 2)] of a finite float. *)
Definition round2 (q : Q) : Q := (inject_Z (round_half_even (q * 100)) / 100)%Q.

(** [f"{x:.2f}"]. *)
Definition format_2f (x : pyfloat) : string :=
  match x with
  | Fin q =>
      let n := Z.abs (round_half_even (q * 100)) in
      let frac := n mod 100 in
      (if Qlt_le_dec q 0 then "-" else "")
      ++ str_of_Z (n / 100) ++ "."
      ++ (if frac <? 10 then "0" else "") ++ str_of_Z frac
  | Inf negative => if negative then "-inf" else "inf"
  | NaN => "nan"
  end.

(** *** [float(s)] for a string

    After stripping white space: an optional sign, then [inf], [infinity] or
    [nan] in any case, or a decimal number
    [digitpart] . [digitpart] with an optional exponent, where a digitpart is
    digits with single underscores between them. *)

(** The rest of a digitpart, one digit having been read: [acc] is the value
    of the digits so far and [n] their number. *)
Fixpoint digits_tail (l : list ascii) (acc : Z) (n : Z)
    : Z * Z * list ascii :=
  match l with
  | c :: l' =>
      if is_digit c then digits_tail l' (acc * 10 + digit_val c) (n + 1)
      else if Ascii.eqb c "_" then
        match l' with
        | d :: l'' =>
            if is_digit d
            then digits_tail l'' (acc * 10 + digit_val d) (n + 1)
            else (acc, n, l)
        | [] => (acc, n, l)
        end
      else (acc, n, l)
  | [] => (acc, n, l)
  end.

(** An optional digitpart continuing the value [acc]: the new value, the
    number of digits read and what follows. *)
Definition digitpart (l : list ascii) (acc : Z) : Z * Z * list ascii :=
  match l with
  | c :: l' => if is_digit c then digits_tail l' (acc * 10 + digit_val c) 1
               else (acc, 0, l)
  | [] => (acc, 0, l)
  end.

Definition take_sign (l : list ascii) : bool * list ascii :=
  match l with
  | c :: l' => if Ascii.eqb c "-" then (true, l')
               else if Ascii.eqb c "+" then (false, l')
               else (false, l)
  | [] => (false, l)
  end.

(** The exponent after the mantissa: nothing, or [e] or [E], an optional
    sign and a digitpart, up to the end of the text. *)
Definition exponent (l : list ascii) : option Z :=
  match l with
  | [] => Some 0
  | c :: l' =>
      if Ascii.eqb c "e" || Ascii.eqb c "E" then
        let '(neg, l1) := take_sign l' in
        match digitpart l1 0 with
        | (e, n, []) => if 0 <? n then Some (if neg then - e else e) else None
        | _ => None
        end
      else None
  end.

(** The number [m * 10^e]. *)
Definition scale10 (m e : Z) : Q :=
  if 0 <=? e then inject_Z (m * 10 ^ e)
  else Qmake m (Z.to_pos (10 ^ (- e))).

Definition decimal (l : list ascii) : option Q :=
  let '(i, ni, l1) := digitpart l 0 in
  let '(m, nf, l2) :=
    match l1 with
    | c :: l1' => if Ascii.eqb c "." then digitpart l1' i else (i, 0, l1)
    | [] => (i, 0, l1)
    end in
  if 0 <? ni + nf then
    match exponent l2 with
    | Some e => Some (scale10 m (e - nf))
    | None => None
    end
  else None.

Definition float_of_string (s : string) : res pyfloat :=
  let '(neg, l) := take_sign (list_ascii_of_string (strip s)) in
  let word := lower (string_of_list_ascii l) in
  if String.eqb word "inf" || String.eqb word "infinity" then Ok (Inf neg)
  else if String.eqb word "nan" then Ok NaN
  else
    match decimal l with
    | Some q => Ok (Fin (if neg then - q else q)%Q)
    | None =>
        raise ValueError ("could not convert string to float: '" ++ s ++ "'")
    end.

End PyFloat.
Import PyFloat.

(** ** The probe executor *)

(** [try: m except cs1 as e: h1 e except cs2 as e: h2 e ...]: the first
    clause whose classes match handles the exception; what a handler raises
    is not offered to the later clauses. *)
Fixpoint handle {A : Type} (clauses : list (list exn_class * (exn -> res A)))
    (e : exn) : res A :=
  match clauses with
  | [] => Raise e
  | (cs, h) :: rest =>
      if existsb (isinstance e) cs then h e else handle rest e
  end.

Definition try_ {A : Type} (m : res A)
    (clauses : list (list exn_class * (exn -> res A))) : res A :=
  match m with
  | Ok a => Ok a
  | Raise e => handle clauses e
  end.

Inductive status : Type := Online | Offline | Timeout | Error.

Definition status_str (s : status) : string :=
  match s with
  | Online => "online"
  | Offline => "offline"
  | Timeout => "timeout"
  | Error => "error"
  end.

(** The dictionary a probe returns.  The keys ['raw_output'] and ['error']
    are present in some results only, hence the options; ['response_time']
    is always present and may hold [None]. *)
Record result : Type := mk_result {
  ip : string;
  status_of : status;
  response_time : option pyfloat;
  timestamp : string;
  raw_output : option string;
  error : option string
}.

Record NetworkPinger : Type := mk_pinger { timeout : Z; count : Z }.

(** What [subprocess.run(..., capture_output=True, text=True)] hands back. *)
Record CompletedProcess : Type := mk_completed {
  returncode : Z;
  stdout : string;
  stderr : string
}.

(** The ways in which [subprocess.run] itself fails. *)
Inductive run_failure : Type :=
| NoSuchProgram | NotPermitted | OtherOSFailure | UndecodableOutput.

Definition run_failure_class (f : run_failure) : exn_class :=
  match f with
  | NoSuchProgram => FileNotFoundError
  | NotPermitted => PermissionError
  | OtherOSFailure => OSError
  | UndecodableOutput => UnicodeDecodeError
  end.

(** What the spawned command does, left to itself. *)
Inductive process : Type :=
| Exits (elapsed : Q) (p : CompletedProcess)
| Hangs
| Fails (f : run_failure) (msg : string).

(** The outside world of one probe: [sys.platform], the behaviour of a
    command line, the two readings of [time.time()] around the call and the
    text of [datetime.now().isoformat()]. *)
Record probe_env : Type := mk_probe_env {
  platform : string;
  spawn : list string -> process;
  time_before : Q;
  time_after : Q;
  now_iso : string
}.

(** [subprocess.run(cmd, timeout=cutoff)]: the watchdog. *)
Definition subprocess_run (cutoff : Q) (p : process) : res CompletedProcess :=
  match p with
  | Exits elapsed cp =>
      if Qle_bool elapsed cutoff then Ok cp
      else raise TimeoutExpired "timed out"
  | Hangs => raise TimeoutExpired "timed out"
  | Fails f msg => raise (run_failure_class f) msg
  end.

Definition nl : string := String "010" EmptyString.

(** The body of the [try] inside the loop over the Unix output. *)
Definition unix_time (line : string) : res pyfloat :=
  after <- index (split "time=" line) 1 ;;
  time_part <- index (split " " after) 0 ;;
  float_of_string time_part.

(** The same for the Windows output. *)
Definition windows_time (line : string) : res pyfloat :=
  after <- index (split "time" line) 1 ;;
  time_part <- index (split "ms" after) 0 ;;
  if contains "<" time_part
  then float_of_string (replace "=" "" (replace "<" "" time_part))
  else float_of_string (replace "=" "" time_part).

(** [for line in lines: if wanted(line): try: response_time = parse(line);
    break except (ValueError, IndexError): pass]. *)
Fixpoint scan_lines (wanted : string -> bool) (parse : string -> res pyfloat)
    (lines : list string) (response_time : pyfloat) : res pyfloat :=
  match lines with
  | [] => Ok response_time
  | line :: rest =>
      if wanted line then
        match parse line with
        | Ok parsed_time => Ok parsed_time
        | Raise e =>
            if existsb (isinstance e) [ValueError; IndexError]
            then scan_lines wanted parse rest response_time
            else Raise e
        end
      else scan_lines wanted parse rest response_time
  end.

Definition is_windows (env : probe_env) : bool := startswith "win" (platform env).

Definition command (self : NetworkPinger) (env : probe_env) (ip : string)
    : list string :=
  if is_windows env
  then ["ping"; "-n"; str_of_Z (count self);
        "-w"; str_of_Z (timeout self * 1000); ip]
  else ["ping"; "-c"; str_of_Z (count self);
        "-W"; str_of_Z (timeout self); ip].

(** The grace margin of the watchdog, in seconds. *)
Definition grace : Z := 5.

Definition watchdog (self : NetworkPinger) : Q := inject_Z (timeout self + grace).

Definition ping_single_ip (self : NetworkPinger) (env : probe_env)
    (ip : string) : res result :=
  try_
    (let cmd := command self env ip in
     let start_time := time_before env in
     result <- subprocess_run (watchdog self) (spawn env cmd) ;;
     let end_time := time_after env in
     let response_time := Fin (round2 ((end_time - start_time) * 1000)) in
     if returncode result =? 0 then
       let lines := split nl (stdout result) in
       response_time <-
         (if is_windows env
          then scan_lines
                 (fun line => contains "time=" line || contains "time<" line)
                 windows_time lines response_time
          else scan_lines (contains "time=") unix_time lines response_time) ;;
       Ok {| ip := ip; status_of := Online;
             response_time := Some response_time;
             timestamp := now_iso env;
             raw_output := Some (strip (stdout result));
             error := None |}
     else
       Ok {| ip := ip; status_of := Offline;
             response_time := None;
             timestamp := now_iso env;
             raw_output := None;
             error := Some (if String.eqb (stderr result) ""
                            then "Host unreachable"
                            else strip (stderr result)) |})
    [ ([TimeoutExpired],
       fun _ =>
         Ok {| ip := ip; status_of := Timeout;
               response_time := None;
               timestamp := now_iso env;
               raw_output := None;
               error := Some ("Ping timeout after " ++ str_of_Z (timeout self)
                              ++ " seconds") |});
      ([Exception],
       fun e =>
         Ok {| ip := ip; status_of := Error;
               response_time := None;
               timestamp := now_iso env;
               raw_output := None;
               error := Some (exn_msg e) |}) ].

(** ** The [ipaddress] module of the standard library

    The part the program calls: [ip_address], [ip_network] with
    [strict=False], [hosts], [str] and the order of addresses.  Messages of
    exceptions quote their argument as [repr] does for plain text. *)

Module ipaddress.

Inductive version : Type := V4 | V6.

Definition version_eqb (v w : version) : bool :=
  match v, w with
  | V4, V4 | V6, V6 => true
  | _, _ => false
  end.

Definition max_prefixlen (v : version) : Z :=
  match v with V4 => 32 | V6 => 128 end.

Definition ALL_ONES (v : version) : Z := 2 ^ max_prefixlen v - 1.

(** An [IPv4Address] or [IPv6Address]; only the latter has a scope. *)
Record address : Type := mk_address {
  addr_version : version;
  _ip : Z;
  scope_id : option string
}.

Definition of_int (v : version) (n : Z) : address := mk_address v n None.

Definition repr (s : string) : string := "'" ++ s ++ "'".

Definition all_digits (s : string) : bool :=
  forallb is_digit (list_ascii_of_string s).

(** [int(s, 10)] for a string of decimal digits. *)
Definition int10 (s : string) : Z :=
  fold_left (fun acc c => acc * 10 + digit_val c) (list_ascii_of_string s) 0.

Definition _parse_octet (octet_str : string) : res Z :=
  if String.eqb octet_str "" then raise ValueError "Empty octet not permitted"
  else if negb (all_digits octet_str) then
    raise ValueError ("Only decimal digits permitted in " ++ repr octet_str)
  else if (3 <? String.length octet_str)%nat then
    raise ValueError ("At most 3 characters permitted in " ++ repr octet_str)
  else if negb (String.eqb octet_str "0") && startswith "0" octet_str then
    raise ValueError ("Leading zeros are not permitted in " ++ repr octet_str)
  else
    let octet_int := int10 octet_str in
    if 255 <? octet_int then
      raise ValueError ("Octet " ++ str_of_Z octet_int ++ " (> 255) not permitted")
    else Ok octet_int.

Fixpoint map_res {A B : Type} (f : A -> res B) (l : list A) : res (list B) :=
  match l with
  | [] => Ok []
  | x :: rest => y <- f x ;; ys <- map_res f rest ;; Ok (y :: ys)
  end.

(** [int.from_bytes(octets, 'big')]. *)
Definition from_bytes (octets : list Z) : Z :=
  fold_left (fun acc b => acc * 256 + b) octets 0.

Definition v4_int_from_string (ip_str : string) : res Z :=
  if String.eqb ip_str "" then raise AddressValueError "Address cannot be empty"
  else
    let octets := split "." ip_str in
    if negb (length octets =? 4)%nat then
      raise AddressValueError ("Expected 4 octets in " ++ repr ip_str)
    else
      try_ (bs <- map_res _parse_octet octets ;; Ok (from_bytes bs))
        [ ([ValueError],
           fun exc => raise AddressValueError
                        (exn_msg exc ++ " in " ++ repr ip_str)) ].

Definition IPv4Address (text : string) : res address :=
  if contains "/" text then
    raise AddressValueError ("Unexpected '/' in " ++ repr text)
  else n <- v4_int_from_string text ;; Ok (of_int V4 n).

Definition is_hex_digit (c : ascii) : bool :=
  let n := nat_of_ascii c in
  is_digit c || ((65 <=? n)%nat && (n <=? 70)%nat)
  || ((97 <=? n)%nat && (n <=? 102)%nat).

Definition hex_val (c : ascii) : Z :=
  let n := Z.of_nat (nat_of_ascii c) in
  if is_digit c then n - 48 else if n <? 97 then n - 55 else n - 87.

(** ['%x' % n]. *)
Definition hex (n : Z) : string :=
  HexadecimalString.NilZero.string_of_uint (N.to_hex_uint (Z.to_N n)).

Definition _parse_hextet (hextet_str : string) : res Z :=
  if negb (forallb is_hex_digit (list_ascii_of_string hextet_str)) then
    raise ValueError ("Only hex digits permitted in " ++ repr hextet_str)
  else if (4 <? String.length hextet_str)%nat then
    raise ValueError ("At most 4 characters permitted in " ++ repr hextet_str)
  else if String.eqb hextet_str "" then
    raise ValueError "invalid literal for int() with base 16: ''"
  else
    Ok (fold_left (fun acc c => acc * 16 + hex_val c)
          (list_ascii_of_string hextet_str) 0).

(** [for i in ...: ip_int <<= 16; ip_int |= _parse_hextet(parts[i])]. *)
Fixpoint shift_in (parts : list string) (ip_int : Z) : res Z :=
  match parts with
  | [] => Ok ip_int
  | p :: rest =>
      h <- _parse_hextet p ;; shift_in rest (Z.lor (Z.shiftl ip_int 16) h)
  end.

(** The indices [i] of [range(1, len(parts) - 1)] with an empty [parts[i]]:
    none, one ([skip_index]) or too many. *)
Fixpoint find_skip (parts : list string) (i last : nat) (skip : option nat)
    : res (option nat) :=
  match parts with
  | [] => Ok skip
  | p :: rest =>
      if (1 <=? i)%nat && (i <? last)%nat && String.eqb p "" then
        match skip with
        | Some _ => raise AddressValueError "At most one '::' permitted"
        | None => find_skip rest (S i) last (Some i)
        end
      else find_skip rest (S i) last skip
  end.

Definition HEXTET_COUNT : nat := 8.

Definition v6_int_from_string (ip_str : string) : res Z :=
  if String.eqb ip_str "" then raise AddressValueError "Address cannot be empty"
  else
    let parts := split ":" ip_str in
    if (length parts <? 3)%nat then
      raise AddressValueError ("At least 3 parts expected in " ++ repr ip_str)
    else
      parts <-
        (if contains "." (last parts "") then
           ipv4 <- try_ (IPv4Address (last parts ""))
                     [ ([AddressValueError],
                        fun exc => raise AddressValueError
                                     (exn_msg exc ++ " in " ++ repr ip_str)) ] ;;
           Ok (removelast parts
               ++ [hex (Z.land (Z.shiftr (_ip ipv4) 16) 65535);
                   hex (Z.land (_ip ipv4) 65535)])%list
         else Ok parts) ;;
      if (HEXTET_COUNT + 1 <? length parts)%nat then
        raise AddressValueError ("At most 8 colons permitted in " ++ repr ip_str)
      else
        skip_index <- find_skip parts 0 (length parts - 1) None ;;
        let first_empty := String.eqb (hd "" parts) "" in
        let last_empty := String.eqb (last parts "") "" in
        bounds <-
          match skip_index with
          | Some skip_index =>
              let parts_hi := skip_index in
              let parts_lo := (length parts - skip_index - 1)%nat in
              if first_empty && negb (parts_hi - 1 =? 0)%nat then
                raise AddressValueError
                  "Leading ':' only permitted as part of '::'"
              else if last_empty && negb (parts_lo - 1 =? 0)%nat then
                raise AddressValueError
                  "Trailing ':' only permitted as part of '::'"
              else
                let parts_hi := if first_empty then (parts_hi - 1)%nat
                                else parts_hi in
                let parts_lo := if last_empty then (parts_lo - 1)%nat
                                else parts_lo in
                if (HEXTET_COUNT <? parts_hi + parts_lo + 1)%nat then
                  raise AddressValueError
                    "Expected at most 7 other parts with '::'"
                else Ok (parts_hi, parts_lo,
                         (HEXTET_COUNT - (parts_hi + parts_lo))%nat)
          | None =>
              if negb (length parts =? HEXTET_COUNT)%nat then
                raise AddressValueError "Exactly 8 parts expected without '::'"
              else if first_empty then
                raise AddressValueError
                  "Leading ':' only permitted as part of '::'"
              else if last_empty then
                raise AddressValueError
                  "Trailing ':' only permitted as part of '::'"
              else Ok (length parts, O, O)
          end ;;
        let '(parts_hi, parts_lo, parts_skipped) := bounds in
        try_
          (ip_int <- shift_in (firstn parts_hi parts) 0 ;;
           let ip_int := Z.shiftl ip_int (16 * Z.of_nat parts_skipped) in
           shift_in (skipn (length parts - parts_lo) parts) ip_int)
          [ ([ValueError],
             fun exc => raise AddressValueError
                          (exn_msg exc ++ " in " ++ repr ip_str)) ].

(** [ip_str.partition('%')]: the text before the first ['%'] and, if there
    is one, the text after it. *)
Fixpoint partition_percent (s : string) : string * option string :=
  match s with
  | EmptyString => ("", None)
  | String c s' =>
      if Ascii.eqb c "%" then ("", Some s')
      else let '(a, b) := partition_percent s' in (String c a, b)
  end.

Definition _split_scope_id (ip_str : string) : res (string * option string) :=
  match partition_percent ip_str with
  | (addr, None) => Ok (addr, None)
  | (addr, Some scope) =>
      if String.eqb scope "" || contains "%" scope then
        raise AddressValueError ("Invalid IPv6 address: " ++ repr ip_str)
      else Ok (addr, Some scope)
  end.

Definition IPv6Address (text : string) : res address :=
  if contains "/" text then
    raise AddressValueError ("Unexpected '/' in " ++ repr text)
  else
    parts <- _split_scope_id text ;;
    let '(addr_str, scope) := parts in
    n <- v6_int_from_string addr_str ;;
    Ok (mk_address V6 n scope).

Definition ip_address (text : string) : res address :=
  match try_ (a <- IPv4Address text ;; Ok (Some a))
          [ ([AddressValueError; NetmaskValueError], fun _ => Ok None) ] with
  | Raise e => Raise e
  | Ok (Some a) => Ok a
  | Ok None =>
      match try_ (a <- IPv6Address text ;; Ok (Some a))
              [ ([AddressValueError; NetmaskValueError], fun _ => Ok None) ] with
      | Raise e => Raise e
      | Ok (Some a) => Ok a
      | Ok None =>
          raise ValueError
            (repr text ++ " does not appear to be an IPv4 or IPv6 address")
      end
  end.

(** *** Networks *)

(** An [IPv4Network] or [IPv6Network]: the (masked) network address and the
    prefix length; the net mask follows from the latter. *)
Record network : Type := mk_network {
  network_address : address;
  prefixlen : Z
}.

Definition net_version (n : network) : version :=
  addr_version (network_address n).

Definition _ip_int_from_prefix (v : version) (prefixlen : Z) : Z :=
  Z.lxor (ALL_ONES v) (Z.shiftr (ALL_ONES v) prefixlen).

Definition netmask (n : network) : Z :=
  _ip_int_from_prefix (net_version n) (prefixlen n).

Definition hostmask (n : network) : Z :=
  Z.lxor (netmask n) (ALL_ONES (net_version n)).

Definition broadcast_address (n : network) : address :=
  of_int (net_version n) (Z.lor (_ip (network_address n)) (hostmask n)).

(** [x.bit_length()] for [0 <= x]. *)
Definition bit_length (x : Z) : Z := if x =? 0 then 0 else Z.log2 x + 1.

Definition _count_righthand_zero_bits (number bits : Z) : Z :=
  if number =? 0 then bits
  else Z.min bits (bit_length (Z.land (Z.lnot number) (number - 1))).

Definition _prefix_from_ip_int (v : version) (ip_int : Z) : res Z :=
  let trailing_zeroes := _count_righthand_zero_bits ip_int (max_prefixlen v) in
  let prefixlen := max_prefixlen v - trailing_zeroes in
  let leading_ones := Z.shiftr ip_int trailing_zeroes in
  let all_ones := Z.shiftl 1 prefixlen - 1 in
  if negb (leading_ones =? all_ones) then
    raise ValueError "Netmask pattern mixes zeroes & ones"
  else Ok prefixlen.

Definition _report_invalid_netmask {A : Type} (netmask_str : string) : res A :=
  raise NetmaskValueError (repr netmask_str ++ " is not a valid netmask").

Definition _prefix_from_prefix_string (v : version) (prefixlen_str : string)
    : res Z :=
  if negb (all_digits prefixlen_str && negb (String.eqb prefixlen_str "")) then
    _report_invalid_netmask prefixlen_str
  else
    let prefixlen := int10 prefixlen_str in
    if negb ((0 <=? prefixlen) && (prefixlen <=? max_prefixlen v)) then
      _report_invalid_netmask prefixlen_str
    else Ok prefixlen.

(** Only [_BaseV4._make_netmask] falls back on this one. *)
Definition _prefix_from_ip_string (ip_str : string) : res Z :=
  ip_int <- try_ (v4_int_from_string ip_str)
              [ ([AddressValueError],
                 fun _ => _report_invalid_netmask ip_str) ] ;;
  match _prefix_from_ip_int V4 ip_int with
  | Ok p => Ok p
  | Raise e =>
      if isinstance e ValueError then
        try_ (_prefix_from_ip_int V4 (Z.lxor ip_int (ALL_ONES V4)))
          [ ([ValueError], fun _ => _report_invalid_netmask ip_str) ]
      else Raise e
  end.

(** The prefix length of [_make_netmask], for the text after the ['/']. *)
Definition _make_netmask (v : version) (arg : string) : res Z :=
  match v with
  | V4 =>
      try_ (_prefix_from_prefix_string V4 arg)
        [ ([NetmaskValueError], fun _ => _prefix_from_ip_string arg) ]
  | V6 => _prefix_from_prefix_string V6 arg
  end.

(** [_split_addr_prefix] on a string: the address and, if given, the mask. *)
Definition _split_addr_prefix (text : string) : res (string * option string) :=
  match split "/" text with
  | [addr] => Ok (addr, None)
  | [addr; mask] => Ok (addr, Some mask)
  | _ => raise AddressValueError ("Only one '/' permitted in " ++ repr text)
  end.

(** [IPv4Network(text, strict=False)] and [IPv6Network(text, strict=False)]. *)
Definition Network (v : version) (text : string) : res network :=
  parts <- _split_addr_prefix text ;;
  let '(addr, mask) := parts in
  network_address <-
    (match v with V4 => IPv4Address addr | V6 => IPv6Address addr end) ;;
  prefixlen <-
    (match mask with
     | Some m => _make_netmask v m
     | None => Ok (max_prefixlen v)
     end) ;;
  let packed := _ip network_address in
  let netmask := _ip_int_from_prefix v prefixlen in
  if negb (Z.land packed netmask =? packed) then
    Ok (mk_network (of_int v (Z.land packed netmask)) prefixlen)
  else Ok (mk_network network_address prefixlen).

(** [ip_network(text, strict=False)]. *)
Definition ip_network (text : string) : res network :=
  match try_ (n <- Network V4 text ;; Ok (Some n))
          [ ([AddressValueError; NetmaskValueError], fun _ => Ok None) ] with
  | Raise e => Raise e
  | Ok (Some n) => Ok n
  | Ok None =>
      match try_ (n <- Network V6 text ;; Ok (Some n))
              [ ([AddressValueError; NetmaskValueError], fun _ => Ok None) ] with
      | Raise e => Raise e
      | Ok (Some n) => Ok n
      | Ok None =>
          raise ValueError
            (repr text ++ " does not appear to be an IPv4 or IPv6 network")
      end
  end.

(** [range(a, b)]. *)
Definition range (a b : Z) : list Z :=
  map (fun i => a + Z.of_nat i) (seq 0 (Z.to_nat (b - a))).

(** [list(net.hosts())].  The constructor rebinds [hosts] for the two
    longest prefixes: to [__iter__] for one host bit, to the single address
    given (which is then the network address) for none. *)
Definition hosts (n : network) : list address :=
  let v := net_version n in
  let network := _ip (network_address n) in
  let broadcast := _ip (broadcast_address n) in
  if prefixlen n =? max_prefixlen v - 1 then
    map (of_int v) (range network (broadcast + 1))
  else if prefixlen n =? max_prefixlen v then
    [network_address n]
  else
    match v with
    | V4 => map (of_int v) (range (network + 1) broadcast)
    | V6 => map (of_int v) (range (network + 1) (broadcast + 1))
    end.

(** *** Text of an address *)

(** [ip_int.to_bytes(4, 'big')]. *)
Definition to_bytes4 (ip_int : Z) : list Z :=
  [Z.shiftr ip_int 24 mod 256; Z.shiftr ip_int 16 mod 256;
   Z.shiftr ip_int 8 mod 256; ip_int mod 256].

Definition v4_string_from_ip_int (ip_int : Z) : string :=
  join "." (map str_of_Z (to_bytes4 ip_int)).

(** The eight hextets of ['%032x' % ip_int], each printed with ['%x']. *)
Definition hextets_of (ip_int : Z) : list string :=
  map (fun k => hex (Z.shiftr ip_int (16 * (7 - Z.of_nat k)) mod 65536))
      (seq 0 8).

(** The loop of [_compress_hextets]: the start and length of the first
    longest run of ["0"]. *)
Fixpoint best_run (hextets : list string) (index : Z)
    (best_start best_len start len : Z) : Z * Z :=
  match hextets with
  | [] => (best_start, best_len)
  | h :: rest =>
      if String.eqb h "0" then
        let len := len + 1 in
        let start := if start =? -1 then index else start in
        if best_len <? len
        then best_run rest (index + 1) start len start len
        else best_run rest (index + 1) best_start best_len start len
      else best_run rest (index + 1) best_start best_len (-1) 0
  end.

Definition _compress_hextets (hextets : list string) : list string :=
  let '(best_start, best_len) := best_run hextets 0 (-1) 0 (-1) 0 in
  if 1 <? best_len then
    let best_end := best_start + best_len in
    let hextets :=
      if best_end =? Z.of_nat (length hextets) then (hextets ++ [""])%list
      else hextets in
    let hextets :=
      (firstn (Z.to_nat best_start) hextets ++ [""]
       ++ skipn (Z.to_nat best_end) hextets)%list in
    if best_start =? 0 then "" :: hextets else hextets
  else hextets.

Definition v6_string_from_ip_int (ip_int : Z) : string :=
  join ":" (_compress_hextets (hextets_of ip_int)).

(** [str(a)]. *)
Definition str (a : address) : string :=
  match addr_version a with
  | V4 => v4_string_from_ip_int (_ip a)
  | V6 =>
      let ip_str := v6_string_from_ip_int (_ip a) in
      match scope_id a with
      | Some scope => if String.eqb scope "" then ip_str
                      else ip_str ++ "%" ++ scope
      | None => ip_str
      end
  end.

(** *** Order *)

(** [a < b]: addresses of different versions do not compare. *)
Definition lt (a b : address) : res bool :=
  if negb (version_eqb (addr_version a) (addr_version b)) then
    raise TypeError (str a ++ " and " ++ str b ++ " are not of the same version")
  else Ok (_ip a <? _ip b).

End ipaddress.

(** ** The concurrent dispatcher *)

(** A Python [dict] from addresses to results: the items in insertion order,
    no key twice. *)
Definition dict : Type := list (string * result).

(** [d[k] = v]: a key already present keeps its place. *)
Fixpoint dict_set (d : dict) (k : string) (v : result) : dict :=
  match d with
  | [] => [(k, v)]
  | (k', v') :: rest =>
      if String.eqb k k' then (k, v) :: rest
      else (k', v') :: dict_set rest k v
  end.

Definition keys (d : dict) : list string := map fst d.
Definition values (d : dict) : list result := map snd d.

(** The outside world of one dispatch: the world of the probe submitted
    [i]-th, and the scheduler, which decides at each step which of the
    futures still pending completes next. *)
Record dispatch_env : Type := mk_dispatch_env {
  probe_world : nat -> probe_env;
  next_done : nat -> nat
}.

Fixpoint remove_nth {A : Type} (i : nat) (l : list A) : list A :=
  match i, l with
  | _, [] => []
  | O, _ :: rest => rest
  | S i', x :: rest => x :: remove_nth i' rest
  end.

(** [as_completed(futures)]: every future once, in the order the scheduler
    picks among the pending ones. *)
Fixpoint as_completed {A : Type} (fuel : nat) (pick : nat -> nat) (step : nat)
    (pending : list A) : list A :=
  match fuel with
  | O => []
  | S fuel' =>
      let i := (pick step mod length pending)%nat in
      match nth_error pending i with
      | Some f => f :: as_completed fuel' pick (S step) (remove_nth i pending)
      | None => []
      end
  end.

(** [executor.submit(self.ping_single_ip, ip) for ip in ip_list]: the
    outcome each future will hold, the [i]-th probe running in the [i]-th
    world. *)
Fixpoint submit_all (self : NetworkPinger) (world : nat -> probe_env)
    (i : nat) (ip_list : list string) : list (res result) :=
  match ip_list with
  | [] => []
  | ip :: rest =>
      ping_single_ip self (world i) ip :: submit_all self world (S i) rest
  end.

(** [for future in ...: result = future.result();
    results[result['ip']] = result]. *)
Fixpoint collect (futures : list (res result)) (results : dict) : res dict :=
  match futures with
  | [] => Ok results
  | future :: rest =>
      result <- future ;;
      collect rest (dict_set results (ip result) result)
  end.

Definition ping_multiple_ips (self : NetworkPinger) (env : dispatch_env)
    (ip_list : list string) (max_workers : Z) : res dict :=
  if max_workers <=? 0 then
    raise ValueError "max_workers must be greater than 0"
  else
    let future_to_ip := submit_all self (probe_world env) 0 ip_list in
    collect
      (as_completed (length future_to_ip) (next_done env) 0 future_to_ip) [].

(** ** Range expansion *)

(** [net = ip_network(network, strict=False);
    ip_list = [str(ip) for ip in net.hosts()]]. *)
Definition expand (network : string) : res (list string) :=
  net <- ipaddress.ip_network network ;;
  Ok (map ipaddress.str (ipaddress.hosts net)).

(** The lines printed and the results returned. *)
Definition ping_network_range (self : NetworkPinger) (env : dispatch_env)
    (network : string) (max_workers : Z) : res (list string * dict) :=
  try_
    (ip_list <- expand network ;;
     let warning :=
       if (254 <? length ip_list)%nat then
         ["Warning: Network " ++ network ++ " contains "
          ++ str_of_nat (length ip_list) ++ " hosts. This may take a while..."]
       else [] in
     results <- ping_multiple_ips self env ip_list max_workers ;;
     Ok (warning, results))
    [ ([AddressValueError],
       fun e => Ok (["Invalid network range: " ++ exn_msg e], [])) ].

(** ** Validation of the literal targets *)

Definition validate_ip (ip_str : string) : res bool :=
  try_ (_ <- ipaddress.ip_address ip_str ;; Ok true)
    [ ([AddressValueError], fun _ => Ok false) ].

(** The loop of [main] over [args.targets]: the list of addresses kept and
    the warnings printed. *)
Fixpoint main_targets (targets : list string) (ip_list out : list string)
    : res (list string * list string) :=
  match targets with
  | [] => Ok (ip_list, out)
  | target :: rest =>
      valid <- validate_ip target ;;
      if valid then main_targets rest (ip_list ++ [target]) out
      else main_targets rest ip_list
             (out ++ ["Warning: '" ++ target ++ "' is not a valid IP address"])
  end.

(** ** The report *)

Definition status_eqb (s t : status) : bool :=
  match s, t with
  | Online, Online | Offline, Offline | Timeout, Timeout | Error, Error => true
  | _, _ => false
  end.

(** [sum(1 for r in results.values() if r['status'] in wanted)]. *)
Definition count_status (wanted : list status) (results : dict) : nat :=
  length (filter (fun r => existsb (status_eqb (status_of r)) wanted)
            (values results)).

(** One step of a stable sort on the numeric value of the key. *)
Fixpoint insert_by_ip {A : Type} (x : ipaddress.address * A)
    (l : list (ipaddress.address * A)) : list (ipaddress.address * A) :=
  match l with
  | [] => [x]
  | y :: rest =>
      if ipaddress._ip (fst y) <? ipaddress._ip (fst x)
      then y :: insert_by_ip x rest
      else x :: l
  end.

Definition sort_by_ip {A : Type} (l : list (ipaddress.address * A))
    : list (ipaddress.address * A) :=
  fold_right insert_by_ip [] l.

Definition same_version (l : list ipaddress.address) : bool :=
  match l with
  | [] => true
  | a :: rest =>
      forallb (fun b => ipaddress.version_eqb (ipaddress.addr_version a)
                          (ipaddress.addr_version b)) rest
  end.

(** [sorted(results.items(), key=lambda x: ip_address(x[0]))].  The keys are
    computed first; the sort is stable and compares keys with [<], which
    raises as soon as two addresses of different versions meet, and any two
    versions in the list do meet. *)
Definition sorted_items (results : dict) : res (list (string * result)) :=
  ks <- ipaddress.map_res (fun item => ipaddress.ip_address (fst item)) results ;;
  if same_version ks then Ok (map snd (sort_by_ip (combine ks results)))
  else raise TypeError "addresses are not of the same version".

Definition status_display (s : status) : string :=
  match s with
  | Online => "✓ " ++ upper (status_str s)
  | Offline => "✗ " ++ upper (status_str s)
  | _ => "⚠ " ++ upper (status_str s)
  end.

(** The column [f"{result['response_time']:.2f}ms" if
    result['response_time'] else "N/A"]: [None] and zero are both false. *)
Definition response_time_display (r : result) : string :=
  match response_time r with
  | Some x => if truthy x then format_2f x ++ "ms" else "N/A"
  | None => "N/A"
  end.

Definition row (show_details : bool) (item : string * result) : list string :=
  let '(ip, result) := item in
  let timestamp := replace "T" " " (take 19 (timestamp result)) in
  (ljust 15 ip ++ " " ++ ljust 10 (status_display (status_of result)) ++ " "
   ++ ljust 15 (response_time_display result) ++ " " ++ ljust 20 timestamp)
  :: match error result with
     | Some e => if show_details then [rjust 15 "" ++ " Error: " ++ e] else []
     | None => []
     end.

Fixpoint repeat_string (s : string) (n : nat) : string :=
  match n with
  | O => ""
  | S n' => s ++ repeat_string s n'
  end.

Definition summary (results : dict) : string :=
  nl ++ "Summary: " ++ str_of_nat (count_status [Online] results)
  ++ " online, " ++ str_of_nat (count_status [Offline] results)
  ++ " offline, " ++ str_of_nat (count_status [Timeout; Error] results)
  ++ " errors/timeouts".

Definition header : string :=
  nl ++ ljust 15 "IP Address" ++ " " ++ ljust 10 "Status" ++ " "
  ++ ljust 15 "Response Time" ++ " " ++ ljust 20 "Timestamp".

(** The texts of the successive [print] calls. *)
Definition print_results (results : dict) (show_details : bool)
    : res (list string) :=
  match results with
  | [] => Ok ["No results to display"]
  | _ =>
      sorted_results <- sorted_items results ;;
      Ok (header :: repeat_string "-" 65
          :: (flat_map (row show_details) sorted_results
              ++ [summary results])%list)
  end.

(** ** The monitor *)

(** The outside world of a monitoring session.  Cycles are numbered from 1,
    as the variable [cycle] is. *)
Record monitor_env : Type := mk_monitor_env {
  (** [time.time()] before the loop *)
  clock_at_start : Q;
  (** the world of the dispatch of a cycle *)
  cycle_world : nat -> dispatch_env;
  (** the seconds the dispatch and the report of a cycle take *)
  cycle_secs : nat -> Q;
  (** the seconds the sleep after a cycle lasts beyond those asked for *)
  sleep_extra : nat -> Q;
  (** whether Ctrl-C arrives while a cycle runs, or during the sleep after it *)
  interrupt_in_cycle : nat -> bool;
  interrupt_in_sleep : nat -> bool;
  (** [datetime.now().strftime('%Y-%m-%d %H:%M:%S')] at the banner of a cycle *)
  banner_stamp : nat -> string
}.

(** What an observer sees of a session. *)
Inductive event : Type :=
| Cycle (number : nat) (elapsed : Q) (printed : list string)
| Sleep (seconds : Z).

Inductive ending : Type :=
| Completed (message : string)
| StoppedByUser (message : string)
| Raised (e : exn)
| StillRunning.

Record session : Type := mk_session {
  trace : list event;
  ended : ending
}.

Definition banner (env : monitor_env) (cycle : nat) : string :=
  nl ++ "=== Monitoring Cycle " ++ str_of_nat cycle ++ " - "
  ++ banner_stamp env cycle ++ " ===".

(** [except KeyboardInterrupt], reached with [cycle] at its current value. *)
Definition stopped (cycle : nat) : ending :=
  StoppedByUser (nl ++ "Monitoring stopped by user after "
                 ++ str_of_Z (Z.of_nat cycle - 1) ++ " cycles").

(** [if duration and (time.time() - start_time) >= duration]. *)
Definition duration_reached (duration : option Z) (start_time now : Q) : bool :=
  match duration with
  | Some d => negb (d =? 0) && Qle_bool (inject_Z d) (now - start_time)
  | None => false
  end.

(** The [while True] loop; [fuel] bounds the number of cycles looked at and
    [now] is the wall clock. *)
Fixpoint monitor_loop (fuel : nat) (self : NetworkPinger) (env : monitor_env)
    (ip_list : list string) (interval : Z) (duration : option Z)
    (start_time now : Q) (cycle : nat) (seen : list event) : session :=
  match fuel with
  | O => mk_session seen StillRunning
  | S fuel' =>
      if interrupt_in_cycle env cycle then mk_session seen (stopped cycle)
      else
        match
          results <- ping_multiple_ips self (cycle_world env cycle) ip_list 50 ;;
          print_results results false
        with
        | Raise e => mk_session seen (Raised e)
        | Ok printed =>
            let now := (now + cycle_secs env cycle)%Q in
            let seen :=
              (seen ++ [Cycle cycle (cycle_secs env cycle)
                          (banner env cycle :: printed)])%list in
            if duration_reached duration start_time now then
              mk_session seen
                (Completed
                   (match duration with
                    | Some d => nl ++ "Monitoring completed after "
                                ++ str_of_Z d ++ " seconds"
                    | None => ""
                    end))
            else
              let cycle := S cycle in
              if interval <? 0 then
                mk_session seen
                  (Raised (mk_exn ValueError
                             "sleep length must be non-negative"))
              else if interrupt_in_sleep env (pred cycle) then
                mk_session (seen ++ [Sleep interval])%list (stopped cycle)
              else
                monitor_loop fuel' self env ip_list interval duration
                  start_time
                  (now + inject_Z interval + sleep_extra env (pred cycle))%Q
                  cycle (seen ++ [Sleep interval])%list
        end
  end.

Definition continuous_monitor (fuel : nat) (self : NetworkPinger)
    (env : monitor_env) (ip_list : list string) (interval : Z)
    (duration : option Z) : session :=
  monitor_loop fuel self env ip_list interval duration
    (clock_at_start env) (clock_at_start env) 1 [].




(** ** Vocabulary of the properties *)

(** The process outlives the watchdog. *)
Definition overruns (cutoff : Q) (p : process) : Prop :=
  match p with
  | Exits elapsed _ => (cutoff < elapsed)%Q
  | Hangs => True
  | Fails _ _ => False
  end.


(** A call raises nothing but instances of the classes [cs]. *)
Definition raises_only {A : Type} (cs : list exn_class) (m : res A) : Prop :=
  match m with
  | Ok _ => True
  | Raise e => existsb (isinstance e) cs = true
  end.

(** The line filter and the line parser of the platform. *)
Definition wanted_line (env : probe_env) (line : string) : bool :=
  if is_windows env then contains "time=" line || contains "time<" line
  else contains "time=" line.

Definition parse_line (env : probe_env) : string -> res pyfloat :=
  if is_windows env then windows_time else unix_time.



(** *** Sample worlds *)

Definition sample_pinger : NetworkPinger := {| timeout := 3; count := 1 |}.

(** A Unix host on which [ping] ends after [elapsed] seconds with the given
    exit status and output; the wall clock reads 100 and 100.012 around the
    call. *)
Definition unix_world (elapsed : Q) (code : Z) (out : string) : probe_env :=
  {| platform := "linux";
     spawn := fun _ => Exits elapsed (mk_completed code out "");
     time_before := 100;
     time_after := 100 + (12 # 1000);
     now_iso := "2024-05-01T10:00:00.123456" |}.

(** A Unix host on which [ping] never ends. *)
Definition silent_world : probe_env :=
  {| platform := "linux";
     spawn := fun _ => Hangs;
     time_before := 100;
     time_after := 100;
     now_iso := "2024-05-01T10:00:00.123456" |}.

Definition reply_line (time : string) : string :=
  "64 bytes from 10.0.0.5: icmp_seq=1 ttl=64 time=" ++ time ++ " ms".

(** A reachable host whose reply carries the given time. *)
Definition reply_world (time : string) : probe_env :=
  unix_world 1 0 (reply_line time).

(** An entry that is online with a response time of 0.0. *)
Definition zero_entry : result :=
  {| ip := "10.0.0.5"; status_of := Online;
     response_time := Some (Fin 0);
     timestamp := "2024-05-01T10:00:00.123456";
     raw_output := Some (reply_line "0.0");
     error := None |}.

(** The float 12.3: the binary64 number nearest to it. *)
Definition float_12_3 : Q := 3462142213541069 # 281474976710656.

(** The snapshot [{"10.0.0.10": Online(12.3ms), "10.0.0.2": Offline}], the
    time stamps and the texts of the two results being any. *)
Definition two_hosts (stamp10 stamp2 raw err : string) : dict :=
  [ ("10.0.0.10",
     {| ip := "10.0.0.10"; status_of := Online;
        response_time := Some (Fin float_12_3);
        timestamp := stamp10; raw_output := Some raw; error := None |});
    ("10.0.0.2",
     {| ip := "10.0.0.2"; status_of := Offline;
        response_time := None;
        timestamp := stamp2; raw_output := None; error := Some err |}) ].

(** The text of a row of the table. *)
Definition row_text (ip status time stamp : string) : string :=
  ljust 15 ip ++ " " ++ ljust 10 status ++ " " ++ ljust 15 time ++ " "
  ++ ljust 20 (replace "T" " " (take 19 stamp)).

(** The dictionary the loop over the completed futures builds. *)
Definition collected (rs : list result) (results : dict) : dict :=
  fold_left (fun d r => dict_set d (ip r) r) rs results.

(** A dispatch in which every host replies and the futures complete in the
    order of submission. *)
Definition sample_dispatch : dispatch_env :=
  {| probe_world := fun _ => reply_world "0.045"; next_done := fun _ => O |}.

(** The literal accepted by [ip_address]. *)
Definition is_address (text : string) : Prop :=
  exists a, ipaddress.ip_address text = Ok a.

(** The number of probes a dispatch issues. *)
Definition probes_issued (self : NetworkPinger) (env : dispatch_env)
    (ip_list : list string) : nat :=
  length (submit_all self (probe_world env) 0 ip_list).

(** The networks 10.0.0.0/29 and 10.0.0.0/31. *)
Definition net29 : ipaddress.network :=
  ipaddress.mk_network (ipaddress.of_int ipaddress.V4 167772160) 29.

Definition net31 : ipaddress.network :=
  ipaddress.mk_network (ipaddress.of_int ipaddress.V4 167772160) 31.

(** *** Sessions *)

(** A cycle and the sleep after it. *)
Definition round_of (interval : Z) (c : nat * Q * list string) : list event :=
  let '(number, elapsed, printed) := c in
  [Cycle number elapsed printed; Sleep interval].


(** The sleep that would make up for the time a cycle took. *)
Definition compensated_sleep (interval : Z) (elapsed : Q) : Q :=
  let rest := (inject_Z interval - elapsed)%Q in
  if Qle_bool 0 rest then rest else 0%Q.

(** A world in which every cycle takes [secs] seconds, every sleep lasts as
    long as asked and nobody interrupts. *)
Definition steady_world (secs : Q) : monitor_env :=
  {| clock_at_start := 1000;
     cycle_world := fun _ => sample_dispatch;
     cycle_secs := fun _ => secs;
     sleep_extra := fun _ => 0%Q;
     interrupt_in_cycle := fun _ => false;
     interrupt_in_sleep := fun _ => false;
     banner_stamp := fun _ => "2024-05-01 10:00:00" |}.

(** The numeric value of the key of an item, the key being an address. *)
Definition numeric_key (item : string * result) : Z :=
  match ipaddress.ip_address (fst item) with
  | Ok a => ipaddress._ip a
  | Raise _ => 0
  end.

(** The rows of a report follow the numeric value of the addresses. *)
Definition in_numeric_order (items : list (string * result)) : Prop :=
  StronglySorted (fun x y => numeric_key x <= numeric_key y) items.


(** The order of the numeric values of the keys. *)
Definition le_by_ip {A : Type} (x y : ipaddress.address * A) : Prop :=
  ipaddress._ip (fst x) <= ipaddress._ip (fst y).

(** *** The probe executor, case by case *)

(** The message of the result of a probe that timed out. *)
Definition timeout_message (self : NetworkPinger) : string :=
  "Ping timeout after " ++ str_of_Z (timeout self) ++ " seconds".

(** The status the behaviour of the process calls for. *)
Definition status_for (cutoff : Q) (p : process) : status :=
  match p with
  | Exits elapsed cp =>
      if Qle_bool elapsed cutoff
      then if returncode cp =? 0 then Online else Offline
      else Timeout
  | Hangs => Timeout
  | Fails _ _ => Error
  end.

(** The diagnostic it calls for. *)
Definition diagnostic_for (self : NetworkPinger) (p : process)
    : option string :=
  match p with
  | Exits elapsed cp =>
      if Qle_bool elapsed (watchdog self)
      then if returncode cp =? 0 then None
           else Some (if String.eqb (stderr cp) "" then "Host unreachable"
                      else strip (stderr cp))
      else Some (timeout_message self)
  | Hangs => Some (timeout_message self)
  | Fails _ msg => Some msg
  end.




(** *** The dispatcher, entry by entry *)

(** The futures of a dispatch in the order in which they complete. *)
Definition completed (self : NetworkPinger) (env : dispatch_env)
    (ip_list : list string) : list (res result) :=
  let futures := submit_all self (probe_world env) 0 ip_list in
  as_completed (length futures) (next_done env) 0 futures.

(** [r] is the last of the results [rs] for the address [a]. *)
Definition last_for (a : string) (r : result) (rs : list result) : Prop :=
  exists before after,
    rs = (before ++ r :: after)%list
    /\ ip r = a
    /\ forall r', In r' after -> ip r' <> a.

(** The same worlds for the probes, another order of completion. *)
Definition reordered (env : dispatch_env) (order : nat -> nat)
    : dispatch_env :=
  {| probe_world := probe_world env; next_done := order |}.

(** A dispatch in which the probes complete in the reverse order, the first
    host replying in 0.045 ms and every other in 7 ms. *)
Definition uneven_dispatch : dispatch_env :=
  {| probe_world := fun i => match i with
                             | O => reply_world "0.045"
                             | S _ => reply_world "7"
                             end;
     next_done := fun step => (100 - step)%nat |}.

(** A call raises nothing but exceptions of exactly the classes [cs]. *)
Definition raises_exactly {A : Type} (cs : list exn_class) (m : res A)
    : Prop :=
  match m with
  | Ok _ => True
  | Raise e => In (exn_cls e) cs
  end.

(** The [ValueError] of [ip_address] and of [ip_network]. *)
Definition no_address (text : string) : exn :=
  mk_exn ValueError
    (ipaddress.repr text ++ " does not appear to be an IPv4 or IPv6 address").

Definition no_network (text : string) : exn :=
  mk_exn ValueError
    (ipaddress.repr text ++ " does not appear to be an IPv4 or IPv6 network").

(** *** The report, outcome by outcome *)

(** The text is an address of the given version. *)
Definition is_address_of (v : ipaddress.version) (text : string) : Prop :=
  exists a, ipaddress.ip_address text = Ok a /\ ipaddress.addr_version a = v.

Definition has_error (item : string * result) : bool :=
  match error (snd item) with
  | Some _ => true
  | None => false
  end.

(** The lines of detail a report adds to its rows. *)
Definition detail_lines (show_details : bool) (results : dict) : nat :=
  if show_details then length (filter has_error results) else O.

(** A snapshot with an IPv4 and an IPv6 host. *)
Definition two_versions : dict :=
  [ ("10.0.0.5", zero_entry);
    ("::1",
     {| ip := "::1"; status_of := Offline; response_time := None;
        timestamp := "2024-05-01T10:00:01.000001";
        raw_output := None; error := Some "Host unreachable" |}) ].

(** A snapshot with a key that is no address. *)
Definition with_a_name : dict :=
  [ ("10.0.0.5", zero_entry);
    ("gateway",
     {| ip := "gateway"; status_of := Offline; response_time := None;
        timestamp := "2024-05-01T10:00:01.000001";
        raw_output := None; error := Some "Host unreachable" |}) ].

(** *** Range scans *)

(** The warning of [ping_network_range] about the size of a range. *)
Definition size_warning (network : string) (ip_list : list string)
    : list string :=
  if (254 <? length ip_list)%nat then
    ["Warning: Network " ++ network ++ " contains "
     ++ str_of_nat (length ip_list) ++ " hosts. This may take a while..."]
  else [].

(** The number of host bits of a network. *)
Definition host_bits (net : ipaddress.network) : Z :=
  ipaddress.max_prefixlen (ipaddress.net_version net)
  - ipaddress.prefixlen net.

(** The number of addresses [hosts] lists for a network with [h] host
    bits. *)
Definition host_count (v : ipaddress.version) (h : Z) : Z :=
  if h =? 0 then 1
  else if h =? 1 then 2
  else match v with
       | ipaddress.V4 => 2 ^ h - 2
       | ipaddress.V6 => 2 ^ h - 1
       end.

(** ** The probe executor: properties *)

Section Probe.

Variable self : NetworkPinger.
Variable env : probe_env.
Variable ip_addr : string.

Lemma index_raises_only (A : Type) (l : list A) (i : nat) :
  raises_only [ValueError; IndexError] (index l i).
Proof.
  unfold index. destruct (nth_error l i); simpl; auto.
Qed.

Lemma float_of_string_raises_only (s : string) :
  raises_only [ValueError; IndexError] (float_of_string s).
Proof.
  unfold float_of_string.
  destruct (take_sign _) as [neg l].
  destruct (_ || _); simpl; auto.
  destruct (String.eqb _ "nan"); simpl; auto.
  destruct (decimal l); simpl; auto.
Qed.

Lemma bind_raises_only (A B : Type) (cs : list exn_class) (m : res A)
    (k : A -> res B) :
  raises_only cs m -> (forall a, raises_only cs (k a)) ->
  raises_only cs (bind m k).
Proof.
  destruct m; simpl; auto.
Qed.

Lemma parse_line_raises_only (line : string) :
  raises_only [ValueError; IndexError] (parse_line env line).
Proof.
  unfold parse_line, windows_time, unix_time.
  destruct (is_windows env);
    repeat (apply bind_raises_only; [apply index_raises_only | intro]);
    try destruct (contains "<" _); apply float_of_string_raises_only.
Qed.

(** The loop over the output lines ends with a value: what a line raises is
    passed over. *)
Lemma scan_lines_ok (wanted : string -> bool) (lines : list string)
    (fallback : pyfloat) :
  exists t, scan_lines wanted (parse_line env) lines fallback = Ok t.
Proof.
  induction lines as [|line rest IH]; simpl.
  - eauto.
  - destruct (wanted line); auto.
    pose proof (parse_line_raises_only line) as H.
    destruct (parse_line env line) as [t|e]; simpl in H.
    + eauto.
    + simpl. rewrite H. exact IH.
Qed.


Lemma ping_single_ip_unfold :
  ping_single_ip self env ip_addr =
  try_
    (result <- subprocess_run (watchdog self)
                 (spawn env (command self env ip_addr)) ;;
     if returncode result =? 0 then
       response_time <-
         scan_lines (wanted_line env) (parse_line env)
           (split nl (stdout result))
           (Fin (round2 ((time_after env - time_before env) * 1000))) ;;
       Ok {| ip := ip_addr; status_of := Online;
             response_time := Some response_time;
             timestamp := now_iso env;
             raw_output := Some (strip (stdout result));
             error := None |}
     else
       Ok {| ip := ip_addr; status_of := Offline;
             response_time := None;
             timestamp := now_iso env;
             raw_output := None;
             error := Some (if String.eqb (stderr result) ""
                            then "Host unreachable"
                            else strip (stderr result)) |})
    [ ([TimeoutExpired],
       fun _ =>
         Ok {| ip := ip_addr; status_of := Timeout;
               response_time := None;
               timestamp := now_iso env;
               raw_output := None;
               error := Some ("Ping timeout after " ++ str_of_Z (timeout self)
                              ++ " seconds") |});
      ([Exception],
       fun e =>
         Ok {| ip := ip_addr; status_of := Error;
               response_time := None;
               timestamp := now_iso env;
               raw_output := None;
               error := Some (exn_msg e) |}) ].
Proof.
  unfold ping_single_ip, wanted_line, parse_line.
  destruct (is_windows env); reflexivity.
Qed.

Lemma subprocess_run_raises_only (cutoff : Q) (p : process) :
  raises_only [Exception] (subprocess_run cutoff p).
Proof.
  destruct p as [elapsed cp| |f msg]; simpl; auto.
  - destruct (Qle_bool elapsed cutoff); simpl; auto.
  - destruct f; reflexivity.
Qed.

Lemma ping_single_ip_always_returns_aux :
  exists r, ping_single_ip self env ip_addr = Ok r /\ ip r = ip_addr.
Proof.
  rewrite ping_single_ip_unfold.
  pose proof (subprocess_run_raises_only (watchdog self)
                (spawn env (command self env ip_addr))) as Hrun.
  destruct (subprocess_run _ _) as [cp|e]; simpl in *.
  - destruct (returncode cp =? 0).
    + destruct (scan_lines_ok (wanted_line env) (split nl (stdout cp))
                  (Fin (round2 ((time_after env - time_before env) * 1000))))
        as [t Ht].
      rewrite Ht. simpl. eauto.
    + simpl. eauto.
  - rewrite orb_false_r in Hrun.
    destruct (isinstance e TimeoutExpired || false); [simpl; eauto|].
    rewrite Hrun. simpl. eauto.
Qed.


(** C4. A probe whose external call outlives the watchdog, the timeout plus
    the grace margin, yields status Timeout and no response time. *)
Theorem watchdog_expiry_yields_timeout :
  overruns (watchdog self) (spawn env (command self env ip_addr)) ->
  exists r, ping_single_ip self env ip_addr = Ok r
            /\ status_of r = Timeout /\ response_time r = None.
Proof.
  intro H. rewrite ping_single_ip_unfold.
  destruct (spawn env (command self env ip_addr)) as [elapsed cp| |f msg];
    simpl in H |- *.
  - destruct (Qle_bool elapsed (watchdog self)) eqn:Hle.
    + apply Qle_bool_iff in Hle. exfalso. revert H Hle. apply Qlt_not_le.
    + simpl. eauto.
  - eauto.
  - contradiction.
Qed.

End Probe.

Lemma watchdog_expiry_witness :
  overruns (watchdog sample_pinger)
    (spawn silent_world (command sample_pinger silent_world "10.0.0.5"))
  /\ exists r, ping_single_ip sample_pinger silent_world "10.0.0.5" = Ok r
               /\ status_of r = Timeout /\ response_time r = None.
Proof.
  split.
  - exact I.
  - apply (watchdog_expiry_yields_timeout sample_pinger silent_world "10.0.0.5").
    exact I.
Defined.

(** ** Response times *)






(** ** The report: properties *)


Module ReportFacts.
Import ipaddress.

Section Sorting.

Variable A : Type.

Lemma insert_by_ip_perm (x : address * A) (l : list (address * A)) :
  Permutation (insert_by_ip x l) (x :: l).
Proof.
  induction l as [|y l IH]; simpl; [apply Permutation_refl|].
  destruct (_ip (fst y) <? _ip (fst x)).
  - apply perm_trans with (y :: x :: l); [apply perm_skip; exact IH|].
    apply perm_swap.
  - apply Permutation_refl.
Qed.

Lemma sort_by_ip_perm (l : list (address * A)) :
  Permutation (sort_by_ip l) l.
Proof.
  induction l as [|x l IH]; simpl; [apply perm_nil|].
  apply perm_trans with (x :: sort_by_ip l).
  - apply insert_by_ip_perm.
  - apply perm_skip. exact IH.
Qed.

Lemma insert_by_ip_sorted (x : address * A) (l : list (address * A)) :
  StronglySorted le_by_ip l -> StronglySorted le_by_ip (insert_by_ip x l).
Proof.
  induction 1 as [|y l Hl IH Hy]; simpl.
  - constructor; constructor.
  - destruct (Z.ltb_spec (_ip (fst y)) (_ip (fst x))) as [Hlt|Hge].
    + constructor; [exact IH|].
      apply Forall_forall. intros z Hz.
      apply (Permutation_in _ (insert_by_ip_perm x l)) in Hz.
      destruct Hz as [<-|Hz].
      * unfold le_by_ip. lia.
      * rewrite Forall_forall in Hy. auto.
    + constructor; [constructor; assumption|].
      constructor; [exact Hge|].
      apply Forall_forall. intros z Hz. rewrite Forall_forall in Hy.
      specialize (Hy z Hz). unfold le_by_ip in *. lia.
Qed.

Lemma sort_by_ip_sorted (l : list (address * A)) :
  StronglySorted le_by_ip (sort_by_ip l).
Proof.
  induction l as [|x l IH]; simpl; [constructor|].
  apply insert_by_ip_sorted. exact IH.
Qed.

End Sorting.

Lemma map_res_keys (items : list (string * result)) :
  forall ks,
    map_res (fun item => ip_address (fst item)) items = Ok ks ->
    length ks = length items
    /\ Forall (fun p => numeric_key (snd p) = _ip (fst p)) (combine ks items).
Proof.
  induction items as [|item rest IH]; intros ks; simpl.
  - intro H. injection H as <-. split; [reflexivity|constructor].
  - destruct (ip_address (fst item)) as [a|e] eqn:Ha; simpl; [|discriminate].
    destruct (map_res _ rest) as [ks'|e]; simpl; [|discriminate].
    intro H. injection H as <-.
    destruct (IH ks' eq_refl) as [Hlen Hall].
    split; [simpl; congruence|].
    constructor; [|exact Hall].
    unfold numeric_key. simpl. rewrite Ha. reflexivity.
Qed.

Lemma map_snd_combine (B C : Type) (ks : list B) (items : list C) :
  length ks = length items -> map snd (combine ks items) = items.
Proof.
  revert items. induction ks as [|k ks IH]; intros [|item items] H;
    simpl in *; try discriminate; [reflexivity|].
  rewrite IH by congruence. reflexivity.
Qed.

Lemma sorted_map_snd (l : list (address * (string * result))) :
  Forall (fun p => numeric_key (snd p) = _ip (fst p)) l ->
  StronglySorted le_by_ip l ->
  in_numeric_order (map snd l).
Proof.
  intros Hkeys Hsorted. unfold in_numeric_order.
  induction Hsorted as [|x l Hl IH Hx]; simpl; [constructor|].
  inversion Hkeys as [|? ? Hkx Hkl]; subst.
  constructor; [apply IH; exact Hkl|].
  rewrite Forall_map. rewrite Forall_forall in *.
  intros y Hy. rewrite Hkx, (Hkl y Hy). apply Hx. exact Hy.
Qed.

(** What [sorted] returns: the items, each once, by the numeric value of
    their addresses. *)
Lemma sorted_items_sorted (results : dict) (items : list (string * result)) :
  sorted_items results = Ok items ->
  Permutation items results /\ in_numeric_order items.
Proof.
  unfold sorted_items.
  destruct (map_res _ results) as [ks|e] eqn:Hks; simpl; [|discriminate].
  destruct (same_version ks); [|discriminate].
  intro H. injection H as <-.
  destruct (map_res_keys _ _ Hks) as [Hlen Hkeys].
  split.
  - rewrite <- (map_snd_combine _ _ ks results Hlen) at 2.
    apply Permutation_map. apply sort_by_ip_perm.
  - apply sorted_map_snd.
    + rewrite Forall_forall in *. intros p Hp. apply Hkeys.
      revert Hp. apply Permutation_in. apply sort_by_ip_perm.
    + apply sort_by_ip_sorted.
Qed.

(** What a report prints for a snapshot that is not empty. *)
Lemma print_results_rows (results : dict) (show_details : bool)
    (printed : list string) :
  results <> [] ->
  print_results results show_details = Ok printed ->
  exists items,
    Permutation items results
    /\ in_numeric_order items
    /\ printed
       = header :: repeat_string "-" 65
         :: (flat_map (row show_details) items ++ [summary results])%list.
Proof.
  intros Hne. unfold print_results.
  destruct results as [|item rest]; [contradiction|].
  destruct (sorted_items (item :: rest)) as [items|e] eqn:Hs; simpl;
    [|discriminate].
  intro H. injection H as <-.
  destruct (sorted_items_sorted _ _ Hs) as [Hperm Hsorted].
  exists items. auto.
Qed.

End ReportFacts.

(** ** The response-time column *)

(** C10. An entry that is Online with a response time of exactly 0.0 is
    shown with "N/A" in the response-time column, as an entry without a
    response time is, and not with "0.00ms": the column tests the value for
    truth, not for presence.  Every report of a snapshot that holds the entry
    prints that row. *)
Theorem zero_response_time_shows_na (k : string) (r : result) (q : Q)
    (show_details : bool) :
  status_of r = Online ->
  response_time r = Some (Fin q) ->
  (q == 0)%Q ->
  response_time_display r = "N/A"
  /\ hd "" (row show_details (k, r))
     = row_text k "✓ ONLINE" "N/A" (timestamp r)
  /\ (forall results printed,
        In (k, r) results ->
        print_results results show_details = Ok printed ->
        In (row_text k "✓ ONLINE" "N/A" (timestamp r)) printed)
  /\ format_2f (Fin 0) ++ "ms" = "0.00ms".
Proof.
  intros Hs Ht Hq.
  assert (Hd : response_time_display r = "N/A").
  { unfold response_time_display. rewrite Ht. simpl.
    apply Qeq_bool_iff in Hq. rewrite Hq. reflexivity. }
  assert (Hrow : exists more,
             row show_details (k, r)
             = row_text k "✓ ONLINE" "N/A" (timestamp r) :: more).
  { unfold row. rewrite Hd, Hs. eexists. reflexivity. }
  destruct Hrow as [more Hrow].
  split; [exact Hd|]. split; [rewrite Hrow; reflexivity|].
  split; [|reflexivity].
  intros results printed Hin Hprinted.
  assert (Hne : results <> []) by (intros ->; contradiction).
  destruct (ReportFacts.print_results_rows _ _ _ Hne Hprinted)
    as (items & Hperm & _ & ->).
  right. right. apply in_or_app. left.
  apply in_flat_map. exists (k, r). split.
  - revert Hin. apply Permutation_in. apply Permutation_sym. exact Hperm.
  - rewrite Hrow. left. reflexivity.
Qed.

Lemma zero_response_time_witness :
  status_of zero_entry = Online
  /\ response_time zero_entry = Some (Fin 0)
  /\ (0 == 0)%Q
  /\ response_time_display zero_entry = "N/A"
  /\ hd "" (row false ("10.0.0.5", zero_entry))
     = row_text "10.0.0.5" "✓ ONLINE" "N/A" (timestamp zero_entry)
  /\ (forall results printed,
        In ("10.0.0.5", zero_entry) results ->
        print_results results false = Ok printed ->
        In (row_text "10.0.0.5" "✓ ONLINE" "N/A" (timestamp zero_entry))
          printed)
  /\ format_2f (Fin 0) ++ "ms" = "0.00ms".
Proof.
  split; [reflexivity|]. split; [reflexivity|]. split; [reflexivity|].
  apply (zero_response_time_shows_na "10.0.0.5" zero_entry 0 false);
    reflexivity.
Defined.


(** ** The dispatcher: properties *)

Lemma remove_nth_perm (A : Type) (l : list A) (i : nat) (x : A) :
  nth_error l i = Some x -> Permutation (x :: remove_nth i l) l.
Proof.
  revert i. induction l as [|y l IH]; intros [|i] H; simpl in *;
    try discriminate.
  - injection H as ->. apply Permutation_refl.
  - apply perm_trans with (y :: x :: remove_nth i l).
    + apply perm_swap.
    + apply perm_skip. apply IH. exact H.
Qed.

(** [as_completed] hands over every future, each once. *)
Lemma as_completed_perm (A : Type) (pick : nat -> nat) (l : list A) :
  forall step, Permutation (as_completed (length l) pick step l) l.
Proof.
  remember (length l) as n eqn:Hn. revert l Hn.
  induction n as [|n IH]; intros l Hn step.
  - destruct l; [apply perm_nil | discriminate].
  - simpl.
    assert (Hi : (pick step mod length l < length l)%nat).
    { apply Nat.mod_upper_bound. rewrite <- Hn. discriminate. }
    destruct (nth_error l (pick step mod length l)) as [f|] eqn:Hf.
    + pose proof (remove_nth_perm _ _ _ _ Hf) as Hp.
      apply perm_trans with (f :: remove_nth (pick step mod length l) l);
        [|exact Hp].
      apply perm_skip. apply IH.
      apply Permutation_length in Hp. simpl in Hp. lia.
    + apply nth_error_None in Hf. lia.
Qed.

Lemma submit_all_ok (self : NetworkPinger) (world : nat -> probe_env)
    (ip_list : list string) :
  forall i, exists rs,
    submit_all self world i ip_list = map Ok rs /\ map ip rs = ip_list.
Proof.
  induction ip_list as [|a rest IH]; intro i; simpl.
  - exists []. split; reflexivity.
  - destruct (ping_single_ip_always_returns_aux self (world i) a)
      as (r & Hr & Hip).
    destruct (IH (S i)) as (rs & Hrs & Hips).
    exists (r :: rs). simpl. rewrite Hr, Hrs, Hip, Hips. split; reflexivity.
Qed.

Lemma collect_ok (rs : list result) :
  forall results, collect (map Ok rs) results = Ok (collected rs results).
Proof.
  induction rs as [|r rs IH]; intro results; simpl; [reflexivity|].
  apply IH.
Qed.

Lemma keys_dict_set (d : dict) (k : string) (v : result) (a : string) :
  In a (keys (dict_set d k v)) <-> a = k \/ In a (keys d).
Proof.
  induction d as [|[k' v'] d IH]; simpl.
  - intuition.
  - destruct (String.eqb k k') eqn:E; simpl.
    + apply String.eqb_eq in E. subst k'. intuition.
    + rewrite IH. intuition.
Qed.

Lemma NoDup_dict_set (d : dict) (k : string) (v : result) :
  NoDup (keys d) -> NoDup (keys (dict_set d k v)).
Proof.
  induction d as [|[k' v'] d IH]; simpl; intro H.
  - constructor; [intros []|constructor].
  - inversion H as [|? ? Hnotin Hnd]; subst.
    destruct (String.eqb k k') eqn:E; simpl.
    + apply String.eqb_eq in E. subst k'. constructor; assumption.
    + constructor; [|apply IH; exact Hnd].
      rewrite keys_dict_set. intros [->|Hin]; [|contradiction].
      rewrite String.eqb_refl in E. discriminate.
Qed.

Lemma entries_dict_set (d : dict) (k : string) (v : result)
    (a : string) (r : result) :
  In (a, r) (dict_set d k v) -> (a, r) = (k, v) \/ In (a, r) d.
Proof.
  induction d as [|[k' v'] d IH]; simpl.
  - intuition.
  - destruct (String.eqb k k'); simpl; intuition.
Qed.

Lemma collected_keys (rs : list result) :
  forall results a,
    In a (keys (collected rs results))
    <-> In a (map ip rs) \/ In a (keys results).
Proof.
  induction rs as [|r rs IH]; intros results a; simpl.
  - intuition.
  - unfold collected in *. simpl. rewrite IH, keys_dict_set. intuition.
Qed.

Lemma collected_NoDup (rs : list result) :
  forall results, NoDup (keys results) -> NoDup (keys (collected rs results)).
Proof.
  induction rs as [|r rs IH]; intros results H; simpl; [exact H|].
  apply IH. apply NoDup_dict_set. exact H.
Qed.

Lemma collected_entries (rs : list result) :
  forall results a r,
    In (a, r) (collected rs results) ->
    (In r rs /\ ip r = a) \/ In (a, r) results.
Proof.
  induction rs as [|r0 rs IH]; intros results a r; simpl.
  - auto.
  - intro H. destruct (IH _ _ _ H) as [[Hin Hip]|Hin]; [auto|].
    destruct (entries_dict_set _ _ _ _ _ Hin) as [E|Hin']; [|auto].
    injection E as -> ->. auto.
Qed.

(** What a dispatch returns: a dictionary with one entry for each address
    submitted, holding a result of probing that address. *)
Lemma ping_multiple_ips_snapshot (self : NetworkPinger) (env : dispatch_env)
    (ip_list : list string) (max_workers : Z) :
  0 < max_workers ->
  exists snapshot,
    ping_multiple_ips self env ip_list max_workers = Ok snapshot
    /\ NoDup (keys snapshot)
    /\ (forall a, In a (keys snapshot) <-> In a ip_list)
    /\ (forall a r, In (a, r) snapshot ->
          ip r = a
          /\ In (Ok r) (submit_all self (probe_world env) 0 ip_list)).
Proof.
  intro Hw. unfold ping_multiple_ips.
  destruct (max_workers <=? 0) eqn:E; [apply Z.leb_le in E; lia|].
  destruct (submit_all_ok self (probe_world env) ip_list 0)
    as (rs & Hrs & Hips).
  rewrite Hrs.
  pose proof (as_completed_perm _ (next_done env) (map Ok rs) 0) as Hp.
  destruct (Permutation_map_inv _ _ Hp) as (rs' & Hrs' & Hp').
  rewrite Hrs', collect_ok.
  exists (collected rs' []). split; [reflexivity|]. split; [|split].
  - apply collected_NoDup. constructor.
  - intro a. rewrite collected_keys. simpl. rewrite <- Hips.
    split.
    + intros [H|[]]. revert H. apply Permutation_in.
      apply Permutation_map. apply Permutation_sym. exact Hp'.
    + intro H. left. revert H. apply Permutation_in.
      apply Permutation_map. exact Hp'.
  - intros a r H.
    destruct (collected_entries _ _ _ _ H) as [[Hin Hip]|[]].
    split; [exact Hip|].
    apply in_map. revert Hin. apply Permutation_in.
    apply Permutation_sym. exact Hp'.
Qed.

(** C1. For every list of addresses submitted, and whatever the single
    probes meet, [ping_multiple_ips] returns a snapshot whose keys are the
    submitted addresses exactly: each of them is a key, no key appears twice
    and there is no other key; the entry of an address is a result of probing
    that address. *)
Theorem snapshot_keys_are_the_targets (self : NetworkPinger)
    (env : dispatch_env) (ip_list : list string) (max_workers : Z) :
  0 < max_workers ->
  exists snapshot,
    ping_multiple_ips self env ip_list max_workers = Ok snapshot
    /\ NoDup (keys snapshot)
    /\ (forall a, In a (keys snapshot) <-> In a ip_list)
    /\ (forall a r, In (a, r) snapshot ->
          ip r = a
          /\ In (Ok r) (submit_all self (probe_world env) 0 ip_list)).
Proof.
  exact (ping_multiple_ips_snapshot self env ip_list max_workers).
Qed.

Lemma snapshot_keys_witness :
  0 < 50
  /\ exists snapshot,
       ping_multiple_ips sample_pinger sample_dispatch
         ["10.0.0.5"; "10.0.0.9"] 50 = Ok snapshot
       /\ NoDup (keys snapshot)
       /\ (forall a, In a (keys snapshot) <-> In a ["10.0.0.5"; "10.0.0.9"])
       /\ (forall a r, In (a, r) snapshot ->
             ip r = a
             /\ In (Ok r) (submit_all sample_pinger
                             (probe_world sample_dispatch) 0
                             ["10.0.0.5"; "10.0.0.9"])).
Proof.
  split.
  - lia.
  - apply (snapshot_keys_are_the_targets sample_pinger sample_dispatch
             ["10.0.0.5"; "10.0.0.9"] 50).
    lia.
Defined.

(** ** The literal targets: properties *)

(** What [ip_address] raises is never an [AddressValueError]: it catches
    those of the two constructors and raises a plain [ValueError]. *)
Lemma ip_address_raises_no_AddressValueError (text : string) (e : exn) :
  ipaddress.ip_address text = Raise e -> isinstance e AddressValueError = false.
Proof.
  unfold ipaddress.ip_address.
  destruct (ipaddress.IPv4Address text) as [a|e4]; simpl; [discriminate|].
  destruct (isinstance e4 AddressValueError) eqn:E4; simpl.
  2: destruct (isinstance e4 NetmaskValueError) eqn:N4; simpl.
  3: { intro H. injection H as <-. exact E4. }
  all: destruct (ipaddress.IPv6Address text) as [a|e6]; simpl;
    try discriminate;
    (destruct (isinstance e6 AddressValueError) eqn:E6; simpl;
     [|destruct (isinstance e6 NetmaskValueError) eqn:N6; simpl]);
    intro H; injection H as <-; try reflexivity; exact E6.
Qed.

(** [validate_ip] answers [True] or raises; it never answers [False]. *)
Lemma validate_ip_cases (text : string) :
  (exists a, ipaddress.ip_address text = Ok a /\ validate_ip text = Ok true)
  \/ (exists e, ipaddress.ip_address text = Raise e
                /\ validate_ip text = Raise e).
Proof.
  unfold validate_ip.
  destruct (ipaddress.ip_address text) as [a|e] eqn:H; simpl.
  - left. eauto.
  - right. exists e. split; [reflexivity|].
    rewrite (ip_address_raises_no_AddressValueError _ _ H). reflexivity.
Qed.

Lemma main_targets_valid (targets : list string) :
  Forall is_address targets ->
  forall ip_list out,
    main_targets targets ip_list out = Ok ((ip_list ++ targets)%list, out).
Proof.
  induction 1 as [|t rest [a Ha] _ IH]; intros ip_list out; simpl.
  - rewrite app_nil_r. reflexivity.
  - destruct (validate_ip_cases t) as [(a' & _ & ->)|(e & He & _)];
      [|congruence].
    simpl. rewrite IH, <- app_assoc. reflexivity.
Qed.

Lemma submit_all_length (self : NetworkPinger) (world : nat -> probe_env)
    (ip_list : list string) :
  forall i, length (submit_all self world i ip_list) = length ip_list.
Proof.
  induction ip_list as [|a rest IH]; intro i; simpl; [reflexivity|].
  rewrite IH. reflexivity.
Qed.

(** C3, as the program has it. Resolving literal inputs that are all
    addresses keeps every one of them, in order and with its repetitions,
    and prints no warning; a dispatch over the list issues one probe for each
    entry, so an address given twice is probed twice, and the snapshot has
    one key for each distinct address. *)
Theorem literal_addresses_are_all_kept (targets : list string) :
  Forall is_address targets ->
  main_targets targets [] [] = Ok (targets, [])
  /\ forall self env max_workers,
       0 < max_workers ->
       probes_issued self env targets = length targets
       /\ exists snapshot,
            ping_multiple_ips self env targets max_workers = Ok snapshot
            /\ NoDup (keys snapshot)
            /\ forall a, In a (keys snapshot) <-> In a targets.
Proof.
  intro H. split.
  - apply (main_targets_valid targets H [] []).
  - intros self env max_workers Hw. split.
    + apply submit_all_length.
    + destruct (ping_multiple_ips_snapshot self env targets max_workers Hw)
        as (snapshot & Hs & Hnd & Hkeys & _).
      exists snapshot. auto.
Qed.

Lemma literal_addresses_witness :
  Forall is_address ["10.0.0.5"; "10.0.0.5"]
  /\ main_targets ["10.0.0.5"; "10.0.0.5"] [] []
     = Ok (["10.0.0.5"; "10.0.0.5"], [])
  /\ forall self env max_workers,
       0 < max_workers ->
       probes_issued self env ["10.0.0.5"; "10.0.0.5"] = 2%nat
       /\ exists snapshot,
            ping_multiple_ips self env ["10.0.0.5"; "10.0.0.5"] max_workers
            = Ok snapshot
            /\ NoDup (keys snapshot)
            /\ forall a, In a (keys snapshot) <-> In a ["10.0.0.5"; "10.0.0.5"].
Proof.
  assert (H : Forall is_address ["10.0.0.5"; "10.0.0.5"]).
  { repeat constructor;
      exists (ipaddress.of_int ipaddress.V4 167772165); reflexivity. }
  split.
  - exact H.
  - exact (literal_addresses_are_all_kept ["10.0.0.5"; "10.0.0.5"] H).
Defined.

(** C3, as stated, fails: on ["10.0.0.5"; "10.0.0.5"; "not-an-ip"] the loop
    does not reach its end, [validate_ip] raising the [ValueError] of
    [ip_address] at the third input; and the two inputs before it are both
    kept and both probed. *)
Lemma resolving_the_three_literals :
  main_targets ["10.0.0.5"; "10.0.0.5"; "not-an-ip"] [] []
  = Raise (mk_exn ValueError
             "'not-an-ip' does not appear to be an IPv4 or IPv6 address")
  /\ main_targets ["10.0.0.5"; "10.0.0.5"] [] []
     = Ok (["10.0.0.5"; "10.0.0.5"], [])
  /\ probes_issued sample_pinger sample_dispatch ["10.0.0.5"; "10.0.0.5"]
     = 2%nat.
Proof.
  split; [|split]; vm_compute; reflexivity.
Qed.

(** ** Range expansion: properties *)

Module RangeFacts.
Import ipaddress.

Lemma In_range (a b x : Z) : In x (range a b) <-> a <= x < b.
Proof.
  unfold range. rewrite in_map_iff. split.
  - intros (i & <- & Hi). apply in_seq in Hi. lia.
  - intro H. exists (Z.to_nat (x - a)). split; [lia|].
    apply in_seq. lia.
Qed.

Lemma NoDup_map_injective (A B : Type) (f : A -> B) (l : list A) :
  (forall x y, f x = f y -> x = y) -> NoDup l -> NoDup (map f l).
Proof.
  intros Hf. induction 1 as [|x l Hx _ IH]; simpl; constructor; auto.
  rewrite in_map_iff. intros (y & E & Hy). apply Hf in E. subst y. auto.
Qed.

Lemma NoDup_range (a b : Z) : NoDup (range a b).
Proof.
  unfold range. apply NoDup_map_injective.
  - intros i j H. lia.
  - apply seq_NoDup.
Qed.

Lemma of_int_injective (v : version) (x y : Z) :
  of_int v x = of_int v y -> x = y.
Proof.
  intro H. injection H as H. exact H.
Qed.

Lemma In_numbered (v : version) (a b x : Z) :
  In (of_int v x) (map (of_int v) (range a b)) <-> a <= x < b.
Proof.
  rewrite in_map_iff, <- In_range. split.
  - intros (y & E & Hy). apply of_int_injective in E. subst y. exact Hy.
  - intro H. exists x. auto.
Qed.

Lemma NoDup_numbered (v : version) (a b : Z) :
  NoDup (map (of_int v) (range a b)).
Proof.
  apply NoDup_map_injective.
  - intros x y. apply of_int_injective.
  - apply NoDup_range.
Qed.

Lemma NoDup_hosts (n : network) : NoDup (hosts n).
Proof.
  unfold hosts.
  destruct (prefixlen n =? max_prefixlen (net_version n) - 1);
    [apply NoDup_numbered|].
  destruct (prefixlen n =? max_prefixlen (net_version n)).
  - constructor; [intros []|constructor].
  - destruct (net_version n); apply NoDup_numbered.
Qed.

Lemma ALL_ONES_ones (v : version) : ALL_ONES v = Z.ones (max_prefixlen v).
Proof.
  unfold ALL_ONES. rewrite Z.ones_equiv. lia.
Qed.

Lemma max_prefixlen_pos (v : version) : 0 < max_prefixlen v.
Proof.
  destruct v; reflexivity.
Qed.

(** The net mask has the [p] highest of its bits set. *)
Lemma netmask_bits (v : version) (p i : Z) :
  0 <= p <= max_prefixlen v -> 0 <= i ->
  Z.testbit (_ip_int_from_prefix v p) i
  = (max_prefixlen v - p <=? i) && (i <? max_prefixlen v).
Proof.
  intros Hp Hi. unfold _ip_int_from_prefix.
  pose proof (max_prefixlen_pos v) as Hm.
  rewrite ALL_ONES_ones, Z.lxor_spec, Z.shiftr_spec by lia.
  rewrite !Z.testbit_ones_nonneg by lia.
  destruct (Z.ltb_spec i (max_prefixlen v)),
    (Z.ltb_spec (i + p) (max_prefixlen v)),
    (Z.leb_spec (max_prefixlen v - p) i); simpl; try reflexivity; lia.
Qed.

(** The host mask has the other bits set. *)
Lemma hostmask_ones (v : version) (p : Z) :
  0 <= p <= max_prefixlen v ->
  Z.lxor (_ip_int_from_prefix v p) (ALL_ONES v) = Z.ones (max_prefixlen v - p).
Proof.
  intros Hp. apply Z.bits_inj'. intros i Hi.
  pose proof (max_prefixlen_pos v) as Hm.
  rewrite Z.lxor_spec, netmask_bits by lia.
  rewrite ALL_ONES_ones, !Z.testbit_ones_nonneg by lia.
  destruct (Z.ltb_spec i (max_prefixlen v)),
    (Z.ltb_spec i (max_prefixlen v - p)),
    (Z.leb_spec (max_prefixlen v - p) i); simpl; try reflexivity; lia.
Qed.

(** The last address of a block follows from its first one. *)
Lemma aligned_block (v : version) (p x : Z) :
  0 <= p <= max_prefixlen v ->
  Z.land x (_ip_int_from_prefix v p) = x ->
  Z.lor x (Z.lxor (_ip_int_from_prefix v p) (ALL_ONES v))
  = x + 2 ^ (max_prefixlen v - p) - 1.
Proof.
  intros Hp Hx. rewrite hostmask_ones by exact Hp.
  assert (H0 : Z.land x (Z.ones (max_prefixlen v - p)) = 0).
  { apply Z.bits_inj'. intros i Hi.
    rewrite Z.bits_0, Z.land_spec, <- Hx, Z.land_spec, netmask_bits by lia.
    rewrite Z.testbit_ones_nonneg by lia.
    destruct (Z.ltb_spec i (max_prefixlen v - p)),
      (Z.leb_spec (max_prefixlen v - p) i); simpl;
      rewrite ?andb_false_r; try reflexivity; lia. }
  pose proof (Z.add_lor_land x (Z.ones (max_prefixlen v - p))) as H.
  rewrite H0, Z.ones_equiv in H. rewrite Z.ones_equiv. lia.
Qed.

Lemma bind_ok (A B : Type) (m : res A) (k : A -> res B) (b : B) :
  bind m k = Ok b -> exists a, m = Ok a /\ k a = Ok b.
Proof.
  destruct m; simpl; [eauto|discriminate].
Qed.

Lemma IPv4Address_version (text : string) (a : address) :
  IPv4Address text = Ok a -> addr_version a = V4.
Proof.
  unfold IPv4Address. destruct (contains "/" text); [discriminate|].
  intro H. apply bind_ok in H. destruct H as (n & _ & H).
  injection H as <-. reflexivity.
Qed.

Lemma IPv6Address_version (text : string) (a : address) :
  IPv6Address text = Ok a -> addr_version a = V6.
Proof.
  unfold IPv6Address. destruct (contains "/" text); [discriminate|].
  intro H. apply bind_ok in H. destruct H as ([addr scope] & _ & H).
  apply bind_ok in H. destruct H as (n & _ & H).
  injection H as <-. reflexivity.
Qed.

Lemma prefix_string_bounds (v : version) (s : string) (p : Z) :
  _prefix_from_prefix_string v s = Ok p -> 0 <= p <= max_prefixlen v.
Proof.
  unfold _prefix_from_prefix_string.
  destruct (negb _); [discriminate|].
  destruct ((0 <=? int10 s) && (int10 s <=? max_prefixlen v)) eqn:E;
    simpl; [|discriminate].
  intro H. injection H as <-.
  apply andb_prop in E. destruct E as [E1 E2]. lia.
Qed.

Lemma bit_length_nonneg (x : Z) : 0 <= bit_length x.
Proof.
  unfold bit_length. destruct (x =? 0); [lia|].
  pose proof (Z.log2_nonneg x). lia.
Qed.

Lemma prefix_ip_int_bounds (v : version) (x p : Z) :
  _prefix_from_ip_int v x = Ok p -> 0 <= p <= max_prefixlen v.
Proof.
  unfold _prefix_from_ip_int, _count_righthand_zero_bits.
  pose proof (max_prefixlen_pos v) as Hm.
  pose proof (bit_length_nonneg (Z.land (Z.lnot x) (x - 1))) as Hb.
  destruct (negb _); [discriminate|].
  intro H. injection H as <-.
  destruct (x =? 0); lia.
Qed.

Lemma prefix_ip_string_bounds (s : string) (p : Z) :
  _prefix_from_ip_string s = Ok p -> 0 <= p <= max_prefixlen V4.
Proof.
  unfold _prefix_from_ip_string. intro H.
  apply bind_ok in H. destruct H as (x & _ & H).
  destruct (_prefix_from_ip_int V4 x) as [p'|e] eqn:E.
  - injection H as <-. apply (prefix_ip_int_bounds _ _ _ E).
  - destruct (isinstance e ValueError); [|discriminate].
    destruct (_prefix_from_ip_int V4 (Z.lxor x (ALL_ONES V4)))
      as [p'|e'] eqn:E'; simpl in H.
    + injection H as <-. apply (prefix_ip_int_bounds _ _ _ E').
    + destruct (_ || _); discriminate.
Qed.

Lemma make_netmask_bounds (v : version) (s : string) (p : Z) :
  _make_netmask v s = Ok p -> 0 <= p <= max_prefixlen v.
Proof.
  destruct v; simpl.
  - destruct (_prefix_from_prefix_string V4 s) as [p'|e] eqn:E; simpl.
    + intro H. injection H as <-. apply (prefix_string_bounds _ _ _ E).
    + destruct (_ || _); [apply prefix_ip_string_bounds|discriminate].
  - apply prefix_string_bounds.
Qed.

(** What the constructor of a network returns: the prefix length is within
    bounds and the network address has no host bit set. *)
Lemma Network_spec (v : version) (text : string) (net : network) :
  Network v text = Ok net ->
  net_version net = v
  /\ 0 <= prefixlen net <= max_prefixlen v
  /\ Z.land (_ip (network_address net)) (_ip_int_from_prefix v (prefixlen net))
     = _ip (network_address net).
Proof.
  unfold Network. intro H.
  apply bind_ok in H. destruct H as ([addr mask] & _ & H).
  apply bind_ok in H. destruct H as (a & Ha & H).
  apply bind_ok in H. destruct H as (p & Hp & H).
  assert (Hv : addr_version a = v).
  { destruct v; [apply (IPv4Address_version _ _ Ha)
                |apply (IPv6Address_version _ _ Ha)]. }
  assert (Hb : 0 <= p <= max_prefixlen v).
  { destruct mask as [m|].
    - apply (make_netmask_bounds _ _ _ Hp).
    - injection Hp as <-. pose proof (max_prefixlen_pos v). lia. }
  destruct (Z.eqb_spec (Z.land (_ip a) (_ip_int_from_prefix v p)) (_ip a))
    as [E|E]; simpl in H; injection H as <-; simpl.
  - auto.
  - repeat split; try lia.
    rewrite <- Z.land_assoc, Z.land_diag. reflexivity.
Qed.

Lemma ip_network_spec (text : string) (net : network) :
  ip_network text = Ok net -> exists v, Network v text = Ok net.
Proof.
  unfold ip_network.
  destruct (Network V4 text) as [n4|e4] eqn:E4; simpl.
  - intro H. injection H as <-. exists V4. exact E4.
  - destruct (Network V6 text) as [n6|e6] eqn:E6; simpl.
    + destruct (_ || _); [|discriminate].
      intro H. injection H as <-. exists V6. exact E6.
    + destruct (isinstance e4 _ || _); [|discriminate].
      destruct (isinstance e6 _ || _); discriminate.
Qed.

End RangeFacts.

(** C7, as the program has it. For every valid CIDR range, a block of
    [2^h] addresses where [h] is the number of host bits, the expansion lists
    addresses of the range, none twice.  When the prefix leaves at least two
    host bits, an IPv4 range loses exactly its network and its broadcast
    address and an IPv6 range exactly its network address; with one host bit
    both addresses of the range are listed, and with none the single address
    is. *)
Theorem hosts_of_a_range (text : string) (net : ipaddress.network) :
  ipaddress.ip_network text = Ok net ->
  let v := ipaddress.net_version net in
  let first := ipaddress._ip (ipaddress.network_address net) in
  let last := ipaddress._ip (ipaddress.broadcast_address net) in
  expand text = Ok (map ipaddress.str (ipaddress.hosts net))
  /\ 0 <= ipaddress.prefixlen net <= ipaddress.max_prefixlen v
  /\ last
     = first + 2 ^ (ipaddress.max_prefixlen v - ipaddress.prefixlen net) - 1
  /\ NoDup (ipaddress.hosts net)
  /\ (ipaddress.prefixlen net <= ipaddress.max_prefixlen v - 2 ->
      forall x,
        In (ipaddress.of_int v x) (ipaddress.hosts net)
        <-> first <= x <= last /\ x <> first
            /\ (v = ipaddress.V4 -> x <> last))
  /\ (ipaddress.prefixlen net = ipaddress.max_prefixlen v - 1 ->
      forall x,
        In (ipaddress.of_int v x) (ipaddress.hosts net) <-> first <= x <= last)
  /\ (ipaddress.prefixlen net = ipaddress.max_prefixlen v ->
      ipaddress.hosts net = [ipaddress.network_address net]).
Proof.
  intros Hnet v first last.
  split; [unfold expand; rewrite Hnet; reflexivity|].
  destruct (RangeFacts.ip_network_spec _ _ Hnet) as [v' Hv'].
  destruct (RangeFacts.Network_spec _ _ _ Hv') as (Hv & Hbounds & Haligned).
  fold v in Hv. subst v'. fold first in Haligned.
  split; [exact Hbounds|].
  split.
  { unfold last, ipaddress.broadcast_address, ipaddress.hostmask,
      ipaddress.netmask. cbn [ipaddress._ip ipaddress.of_int].
    fold v first. apply RangeFacts.aligned_block; assumption. }
  split; [apply RangeFacts.NoDup_hosts|].
  unfold ipaddress.hosts. fold v first last.
  split; [|split].
  - intros Hp x.
    destruct (Z.eqb_spec (ipaddress.prefixlen net)
                (ipaddress.max_prefixlen v - 1)); [lia|].
    destruct (Z.eqb_spec (ipaddress.prefixlen net)
                (ipaddress.max_prefixlen v)); [lia|].
    destruct v; rewrite RangeFacts.In_numbered.
    + split; [intro H; repeat split; try lia|].
      intros (H1 & H2 & H3). specialize (H3 eq_refl). lia.
    + split; [intro H; repeat split; try lia; discriminate|].
      intros (H1 & H2 & _). lia.
  - intros Hp x. rewrite Hp, Z.eqb_refl.
    rewrite RangeFacts.In_numbered. lia.
  - intros Hp. rewrite Hp, Z.eqb_refl.
    destruct (Z.eqb_spec (ipaddress.max_prefixlen v)
                (ipaddress.max_prefixlen v - 1)); [lia|reflexivity].
Qed.

Lemma hosts_of_a_range_witness :
  ipaddress.ip_network "10.0.0.0/29" = Ok net29
  /\ expand "10.0.0.0/29"
     = Ok (map ipaddress.str (ipaddress.hosts net29))
  /\ 0 <= 29 <= 32
  /\ 167772167 = 167772160 + 2 ^ (32 - 29) - 1
  /\ NoDup (ipaddress.hosts net29)
  /\ (29 <= 32 - 2 ->
      forall x,
        In (ipaddress.of_int ipaddress.V4 x) (ipaddress.hosts net29)
        <-> 167772160 <= x <= 167772167 /\ x <> 167772160
            /\ (ipaddress.V4 = ipaddress.V4 -> x <> 167772167))
  /\ (29 = 32 - 1 ->
      forall x,
        In (ipaddress.of_int ipaddress.V4 x) (ipaddress.hosts net29)
        <-> 167772160 <= x <= 167772167)
  /\ (29 = 32 ->
      ipaddress.hosts net29 = [ipaddress.network_address net29]).
Proof.
  assert (H : ipaddress.ip_network "10.0.0.0/29" = Ok net29)
    by (vm_compute; reflexivity).
  split.
  - exact H.
  - exact (hosts_of_a_range "10.0.0.0/29" net29 H).
Defined.

(** C7, as stated, fails: 10.0.0.0/31 is a valid range, and its expansion
    lists its network address 10.0.0.0 and its broadcast address 10.0.0.1. *)
Lemma slash_31_lists_both_ends :
  ipaddress.ip_network "10.0.0.0/31" = Ok net31
  /\ expand "10.0.0.0/31" = Ok ["10.0.0.0"; "10.0.0.1"]
  /\ ipaddress.str (ipaddress.network_address net31) = "10.0.0.0"
  /\ ipaddress.str (ipaddress.broadcast_address net31) = "10.0.0.1".
Proof.
  repeat split; vm_compute; reflexivity.
Qed.

(** ** The monitor: properties *)

Section Monitor.

Variable self : NetworkPinger.
Variable env : monitor_env.
Variable ip_list : list string.
Variable interval : Z.

Lemma rounds_snoc (cs : list (nat * Q * list string)) (k : nat) (e : Q)
    (p : list string) :
  ((flat_map (round_of interval) cs ++ [Cycle k e p]) ++ [Sleep interval])%list
  = flat_map (round_of interval) (cs ++ [(k, e, p)]).
Proof.
  rewrite flat_map_app, <- app_assoc. simpl. reflexivity.
Qed.

(** The trace of a session is made of rounds, a cycle and a sleep of
    [interval] seconds each, with possibly one more cycle at the end; a
    session that completes ends with that cycle. *)
Lemma monitor_loop_shape (duration : option Z) (start_time : Q) (fuel : nat) :
  forall now cycle cs,
    let s := monitor_loop fuel self env ip_list interval duration start_time
               now cycle (flat_map (round_of interval) cs) in
    exists cs' final,
      trace s = (flat_map (round_of interval) cs' ++ final)%list
      /\ (final = [] \/ exists k e p, final = [Cycle k e p])
      /\ (forall msg, ended s = Completed msg -> final <> []).
Proof.
  induction fuel as [|fuel' IH]; intros now cycle cs; cbn [monitor_loop].
  - exists cs, []. rewrite app_nil_r. repeat split; auto. discriminate.
  - destruct (interrupt_in_cycle env cycle).
    { exists cs, []. rewrite app_nil_r. repeat split; auto. discriminate. }
    destruct (_ <- ping_multiple_ips _ _ _ _ ;; _) as [printed|e].
    2: { exists cs, []. rewrite app_nil_r. repeat split; auto. discriminate. }
    destruct (duration_reached _ _ _).
    { exists cs, [Cycle cycle (cycle_secs env cycle)
                    (banner env cycle :: printed)].
      repeat split; eauto; discriminate. }
    destruct (interval <? 0).
    { exists cs, [Cycle cycle (cycle_secs env cycle)
                    (banner env cycle :: printed)].
      repeat split; eauto; discriminate. }
    destruct (interrupt_in_sleep env (pred (S cycle))).
    { exists (cs ++ [(cycle, cycle_secs env cycle,
                      banner env cycle :: printed)])%list, [].
      cbn [trace ended]. rewrite rounds_snoc, app_nil_r.
      repeat split; auto. discriminate. }
    rewrite rounds_snoc. apply IH.
Qed.

Lemma rounds_after_cycle (cs : list (nat * Q * list string))
    (final : list event) :
  (final = [] \/ exists k e p, final = [Cycle k e p]) ->
  forall pre k e p ev rest,
    (flat_map (round_of interval) cs ++ final)%list
    = (pre ++ Cycle k e p :: ev :: rest)%list ->
    ev = Sleep interval.
Proof.
  intro Hfinal.
  induction cs as [|[[k0 e0] p0] cs IH]; intros pre k e p ev rest H.
  - simpl in H. destruct Hfinal as [->|(k1 & e1 & p1 & ->)].
    + destruct pre; discriminate.
    + destruct pre as [|x [|y pre]]; discriminate.
  - simpl in H. destruct pre as [|x pre].
    + simpl in H. injection H as _ _ _ H _. auto.
    + destruct pre as [|y pre].
      * simpl in H. injection H as _ H _. discriminate.
      * simpl in H. injection H as _ _ H. apply (IH _ _ _ _ _ _ H).
Qed.

Lemma rounds_sleep (cs : list (nat * Q * list string)) (final : list event)
    (x : Z) :
  (final = [] \/ exists k e p, final = [Cycle k e p]) ->
  In (Sleep x) (flat_map (round_of interval) cs ++ final)%list ->
  x = interval.
Proof.
  intros Hfinal H. apply in_app_or in H. destruct H as [H|H].
  - apply in_flat_map in H. destruct H as ([[k e] p] & _ & H).
    simpl in H. destruct H as [H|[H|[]]]; congruence.
  - destruct Hfinal as [->|(k & e & p & ->)]; simpl in H.
    + contradiction.
    + destruct H as [H|[]]. discriminate.
Qed.

(** C6, as the program has it. In continuous monitoring the sleep between a
    cycle and the next is [interval] seconds, whatever time the cycle just
    finished took: every sleep of a session is one of [interval] seconds,
    and what follows a cycle in the session is such a sleep. *)
Theorem sleep_is_the_interval (fuel : nat) (duration : option Z) :
  let s := continuous_monitor fuel self env ip_list interval duration in
  (forall x, In (Sleep x) (trace s) -> x = interval)
  /\ (forall pre k e p ev rest,
        trace s = (pre ++ Cycle k e p :: ev :: rest)%list ->
        ev = Sleep interval).
Proof.
  unfold continuous_monitor.
  destruct (monitor_loop_shape duration (clock_at_start env) fuel
              (clock_at_start env) 1%nat [])
    as (cs & final & Htrace & Hfinal & _).
  simpl in Htrace. cbv zeta. rewrite Htrace. split.
  - intros x. apply rounds_sleep. exact Hfinal.
  - apply rounds_after_cycle. exact Hfinal.
Qed.

Variable d : Z.
Hypothesis interval_positive : 0 < interval.
Hypothesis duration_positive : 0 < d.
Hypothesis cycles_take_time : forall k, (0 <= cycle_secs env k)%Q.
Hypothesis sleeps_last : forall k, (0 <= sleep_extra env k)%Q.







End Monitor.



(** C6, as stated, fails: with an interval of 10, after a first cycle that
    took 3 seconds the session sleeps 10 seconds, not the 7 that would make
    up for the cycle. *)
Lemma sleep_after_a_slow_cycle :
  let s := continuous_monitor 2 sample_pinger (steady_world 3)
             ["10.0.0.5"] 10 None in
  (exists printed rest,
     trace s = Cycle 1 3 printed :: Sleep 10 :: rest)
  /\ (compensated_sleep 10 3 == 7)%Q
  /\ ~ (inject_Z 10 == compensated_sleep 10 3)%Q.
Proof.
  split; [|split].
  - vm_compute. eexists. eexists. reflexivity.
  - reflexivity.
  - vm_compute. discriminate.
Qed.

(** * Further properties *)

(** ** The probe executor, case by case *)

Section ProbeCases.

Variable self : NetworkPinger.
Variable env : probe_env.
Variable ip_addr : string.

(** X1. The status and the diagnostic of a result are decided by what the
    process did, and by that alone: Online or Offline by the exit status of a
    process that ended within the watchdog, Timeout for one that did not,
    Error when the call itself failed; the diagnostic is the stripped error
    output of the process, "Host unreachable" when that is empty, the timeout
    message, or the message of the failure.  What the output holds never
    changes the status. *)
Theorem probe_result_follows_process :
  exists r,
    ping_single_ip self env ip_addr = Ok r
    /\ ip r = ip_addr
    /\ timestamp r = now_iso env
    /\ status_of r = status_for (watchdog self) (spawn env (command self env ip_addr))
    /\ error r = diagnostic_for self (spawn env (command self env ip_addr)).
Proof.
  rewrite ping_single_ip_unfold.
  destruct (spawn env (command self env ip_addr)) as [elapsed cp| |f msg]; cbn [subprocess_run].
  - unfold status_for, diagnostic_for.
    destruct (Qle_bool elapsed (watchdog self)); cbn [bind raise try_ handle].
    + destruct (returncode cp =? 0).
      * destruct (scan_lines_ok env (wanted_line env) (split nl (stdout cp))
                    (Fin (round2 ((time_after env - time_before env) * 1000))))
          as [t Ht].
        rewrite Ht. cbn [bind]. eexists. repeat split.
      * eexists. repeat split.
    + eexists. repeat split.
  - cbn [bind raise try_ handle]. eexists. repeat split.
  - cbn [bind raise try_ handle]. destruct f; eexists; repeat split.
Qed.

(** X2. The fields of a result go with its status: a response time and the
    raw output are present exactly in an Online result, a diagnostic exactly
    in the others. *)
Theorem probe_result_shape :
  exists r,
    ping_single_ip self env ip_addr = Ok r
    /\ (response_time r <> None <-> status_of r = Online)
    /\ (raw_output r <> None <-> status_of r = Online)
    /\ (error r <> None <-> status_of r <> Online).
Proof.
  rewrite ping_single_ip_unfold.
  assert (Hshape : forall r : result,
            (status_of r = Online /\ response_time r <> None
             /\ raw_output r <> None /\ error r = None)
            \/ (status_of r <> Online /\ response_time r = None
                /\ raw_output r = None /\ error r <> None) ->
            (response_time r <> None <-> status_of r = Online)
            /\ (raw_output r <> None <-> status_of r = Online)
            /\ (error r <> None <-> status_of r <> Online)).
  { intros r [(H1 & H2 & H3 & H4)|(H1 & H2 & H3 & H4)];
      rewrite ?H2, ?H3, ?H4; intuition congruence. }
  destruct (spawn env (command self env ip_addr)) as [elapsed cp| |f msg]; cbn [subprocess_run].
  - destruct (Qle_bool elapsed (watchdog self)); cbn [bind raise try_ handle].
    + destruct (returncode cp =? 0).
      * destruct (scan_lines_ok env (wanted_line env) (split nl (stdout cp))
                    (Fin (round2 ((time_after env - time_before env) * 1000))))
          as [t Ht].
        rewrite Ht. cbn [bind]. eexists. split; [reflexivity|].
        apply Hshape. left. cbn. repeat split; discriminate.
      * eexists. split; [reflexivity|].
        apply Hshape. right. cbn. repeat split; discriminate.
    + eexists. split; [reflexivity|].
      apply Hshape. right. cbn. repeat split; discriminate.
  - cbn [bind raise try_ handle]. eexists. split; [reflexivity|].
    apply Hshape. right. cbn. repeat split; discriminate.
  - cbn [bind raise try_ handle].
    destruct f; (eexists; split; [reflexivity|]);
      apply Hshape; right; cbn; repeat split; discriminate.
Qed.





End ProbeCases.



(** ** The dispatcher, entry by entry *)

Lemma dict_set_entries (d : dict) (k : string) (v : result) (a : string)
    (r : result) :
  NoDup (keys d) ->
  In (a, r) (dict_set d k v) <-> (a = k /\ r = v) \/ (a <> k /\ In (a, r) d).
Proof.
  induction d as [|[k' v'] d IH]; simpl; intro Hnd.
  - split.
    + intros [E|[]]. injection E as <- <-. auto.
    + intros [[-> ->]|[_ []]]. auto.
  - inversion Hnd as [|? ? Hnotin Hnd']; subst.
    destruct (String.eqb_spec k k') as [<-|Hk]; simpl.
    + split.
      * intros [E|Hin]; [injection E as <- <-; auto|].
        right. split; [|auto].
        intros ->. apply Hnotin. apply (in_map fst _ _ Hin).
      * intros [[-> ->]|[Ha [E|Hin]]]; auto.
        injection E as <- _. contradiction.
    + rewrite (IH Hnd'). split.
      * intros [E|[[-> ->]|[Ha Hin]]]; auto.
        injection E as <- <-. right. split; [congruence|auto].
      * intros [[-> ->]|[Ha [E|Hin]]]; auto.
Qed.

Lemma collected_last (rs : list result) (a : string) (r : result) :
  forall results,
    NoDup (keys results) ->
    In (a, r) (collected rs results)
    <-> last_for a r rs
        \/ (In (a, r) results /\ forall r', In r' rs -> ip r' <> a).
Proof.
  unfold last_for.
  induction rs as [|r0 rs IH]; intros results Hnd.
  - simpl. split.
    + intro H. right. split; [exact H|intros r' []].
    + intros [(before & after & E & _)|[H _]]; [|exact H].
      destruct before; discriminate.
  - change (collected (r0 :: rs) results)
      with (collected rs (dict_set results (ip r0) r0)).
    rewrite (IH _ (NoDup_dict_set _ (ip r0) r0 Hnd)).
    rewrite (dict_set_entries _ _ _ _ _ Hnd).
    split.
    + intros [(before & after & -> & Hip & Hafter)
             |[[[-> ->]|[Ha Hin]] Hrs]].
      * left. exists (r0 :: before), after. auto.
      * left. exists [], rs. auto.
      * right. split; [exact Hin|].
        intros r' [<-|Hr']; [congruence|auto].
    + intros [(before & after & E & Hip & Hafter)|[Hin Hrs]].
      * destruct before as [|b before]; simpl in E; injection E as -> ->.
        -- right. split; [left; auto|exact Hafter].
        -- left. exists before, after. auto.
      * right. split.
        -- right. split; [|exact Hin].
           intro E. apply (Hrs r0 (or_introl eq_refl)). auto.
        -- intros r' Hr'. apply Hrs. right. exact Hr'.
Qed.

Lemma completed_results (self : NetworkPinger) (env : dispatch_env)
    (ip_list : list string) :
  exists rs rs',
    submit_all self (probe_world env) 0 ip_list = map Ok rs
    /\ map ip rs = ip_list
    /\ completed self env ip_list = map Ok rs'
    /\ Permutation rs rs'.
Proof.
  unfold completed.
  destruct (submit_all_ok self (probe_world env) ip_list 0)
    as (rs & Hrs & Hips).
  rewrite Hrs.
  destruct (Permutation_map_inv _ _
              (as_completed_perm _ (next_done env) (map Ok rs) 0))
    as (rs' & Hrs' & Hp).
  exists rs, rs'. auto.
Qed.

Lemma ping_multiple_ips_collected (self : NetworkPinger) (env : dispatch_env)
    (ip_list : list string) (max_workers : Z) (rs' : list result) :
  0 < max_workers ->
  completed self env ip_list = map Ok rs' ->
  ping_multiple_ips self env ip_list max_workers = Ok (collected rs' []).
Proof.
  intros Hw Hc. unfold ping_multiple_ips.
  destruct (Z.leb_spec max_workers 0); [lia|].
  unfold completed in Hc. cbv zeta in Hc. rewrite Hc. apply collect_ok.
Qed.

(** X5. The entry of an address in the snapshot is the result of the probe
    of that address that completed last: when an address is submitted more
    than once, the results of its earlier probes are overwritten. *)
Theorem last_completed_probe_wins (self : NetworkPinger) (env : dispatch_env)
    (ip_list : list string) (max_workers : Z) :
  0 < max_workers ->
  exists snapshot rs,
    ping_multiple_ips self env ip_list max_workers = Ok snapshot
    /\ completed self env ip_list = map Ok rs
    /\ forall a r, In (a, r) snapshot <-> last_for a r rs.
Proof.
  intro Hw.
  destruct (completed_results self env ip_list) as (rs & rs' & _ & _ & Hc & _).
  exists (collected rs' []), rs'.
  split; [apply ping_multiple_ips_collected; assumption|].
  split; [exact Hc|].
  intros a r. rewrite collected_last by constructor.
  split; [intros [H|[[] _]]; exact H|auto].
Qed.

Lemma dict_set_fresh (d : dict) (k : string) (v : result) :
  ~ In k (keys d) -> dict_set d k v = (d ++ [(k, v)])%list.
Proof.
  induction d as [|[k' v'] d IH]; simpl; intro H; [reflexivity|].
  destruct (String.eqb_spec k k') as [->|Hk]; [tauto|].
  rewrite IH by tauto. reflexivity.
Qed.

Lemma collected_distinct (rs : list result) :
  forall results,
    NoDup (keys results ++ map ip rs) ->
    collected rs results
    = (results ++ map (fun r => (ip r, r)) rs)%list.
Proof.
  induction rs as [|r rs IH]; intros results H; simpl.
  - rewrite app_nil_r. reflexivity.
  - change (collected (r :: rs) results)
      with (collected rs (dict_set results (ip r) r)).
    assert (Hfresh : ~ In (ip r) (keys results)).
    { intro Hin. apply NoDup_remove_2 in H. apply H.
      apply in_or_app. left. exact Hin. }
    rewrite (dict_set_fresh _ _ _ Hfresh).
    rewrite IH.
    + rewrite <- app_assoc. reflexivity.
    + unfold keys in *. rewrite map_app, <- app_assoc. exact H.
Qed.

Lemma combine_map_ip (rs : list result) :
  combine (map ip rs) rs = map (fun r => (ip r, r)) rs.
Proof.
  induction rs as [|r rs IH]; simpl; [reflexivity|].
  rewrite IH. reflexivity.
Qed.

(** X6. When the addresses submitted are distinct, the snapshot holds for
    each address the result of its own probe, whatever the order in which
    the probes complete; that order shows in the order of the entries only. *)
Theorem distinct_targets_keep_their_results (self : NetworkPinger)
    (env : dispatch_env) (ip_list : list string) (max_workers : Z) :
  NoDup ip_list ->
  0 < max_workers ->
  exists rs,
    submit_all self (probe_world env) 0 ip_list = map Ok rs
    /\ forall order, exists snapshot,
         ping_multiple_ips self (reordered env order) ip_list max_workers
         = Ok snapshot
         /\ Permutation snapshot (combine ip_list rs)
         /\ length snapshot = length ip_list.
Proof.
  intros Hnd Hw.
  destruct (submit_all_ok self (probe_world env) ip_list 0)
    as (rs & Hrs & Hips).
  exists rs. split; [exact Hrs|]. intro order.
  destruct (completed_results self (reordered env order) ip_list)
    as (rs0 & rs' & Hrs0 & _ & Hc & Hp).
  cbn [reordered probe_world] in Hrs0. rewrite Hrs in Hrs0.
  assert (E : rs0 = rs).
  { clear - Hrs0. revert rs0 Hrs0.
    induction rs as [|r rs IH]; intros [|r0 rs0] H; simpl in H;
      try discriminate; [reflexivity|].
    injection H as -> H. rewrite (IH _ H). reflexivity. }
  subst rs0.
  exists (collected rs' []).
  split; [apply ping_multiple_ips_collected; assumption|].
  assert (Hnd' : NoDup (map ip rs')).
  { apply (Permutation_NoDup (l := map ip rs)).
    - apply Permutation_map. exact Hp.
    - rewrite Hips. exact Hnd. }
  rewrite (collected_distinct rs' [] Hnd'). simpl.
  rewrite <- Hips, combine_map_ip. split.
  - apply Permutation_map. apply Permutation_sym. exact Hp.
  - rewrite !length_map. apply Permutation_length.
    apply Permutation_sym. exact Hp.
Qed.

Lemma last_completed_probe_witness :
  0 < 50
  /\ exists snapshot rs,
       ping_multiple_ips sample_pinger uneven_dispatch
         ["10.0.0.5"; "10.0.0.5"] 50 = Ok snapshot
       /\ completed sample_pinger uneven_dispatch ["10.0.0.5"; "10.0.0.5"]
          = map Ok rs
       /\ forall a r, In (a, r) snapshot <-> last_for a r rs.
Proof.
  split.
  - lia.
  - apply (last_completed_probe_wins sample_pinger uneven_dispatch
             ["10.0.0.5"; "10.0.0.5"] 50).
    lia.
Defined.

Lemma distinct_targets_witness :
  NoDup ["10.0.0.5"; "10.0.0.9"]
  /\ 0 < 50
  /\ exists rs,
       submit_all sample_pinger (probe_world uneven_dispatch) 0
         ["10.0.0.5"; "10.0.0.9"] = map Ok rs
       /\ forall order, exists snapshot,
            ping_multiple_ips sample_pinger (reordered uneven_dispatch order)
              ["10.0.0.5"; "10.0.0.9"] 50 = Ok snapshot
            /\ Permutation snapshot (combine ["10.0.0.5"; "10.0.0.9"] rs)
            /\ length snapshot = length ["10.0.0.5"; "10.0.0.9"].
Proof.
  assert (H1 : NoDup ["10.0.0.5"; "10.0.0.9"]).
  { constructor; [|constructor; [intros []|constructor]].
    intros [H|[]]. discriminate. }
  assert (H2 : 0 < 50) by lia.
  split; [exact H1|]. split; [exact H2|].
  exact (distinct_targets_keep_their_results sample_pinger uneven_dispatch
           ["10.0.0.5"; "10.0.0.9"] 50 H1 H2).
Defined.

(** ** Texts that are no address *)

Module ParseFacts.
Import ipaddress.

Lemma raises_exactly_bind (A B : Type) (cs : list exn_class) (m : res A)
    (k : A -> res B) :
  raises_exactly cs m -> (forall a, raises_exactly cs (k a)) ->
  raises_exactly cs (bind m k).
Proof.
  destruct m; simpl; auto.
Qed.

Lemma raises_exactly_raise (A : Type) (cs : list exn_class) (c : exn_class)
    (msg : string) :
  In c cs -> raises_exactly cs (@raise A c msg).
Proof.
  intro H. exact H.
Qed.

Lemma raises_exactly_weaken (A : Type) (cs ds : list exn_class) (m : res A) :
  incl cs ds -> raises_exactly cs m -> raises_exactly ds m.
Proof.
  intros H. destruct m; simpl; auto.
Qed.

(** [try: m except c' as e: h e] where [m] raises subclasses of [c'] only. *)
Lemma raises_exactly_rewrap (A : Type) (cs ds : list exn_class)
    (c' : exn_class) (m : res A) (h : exn -> res A) :
  raises_exactly cs m ->
  forallb (fun c => issubclass c c') cs = true ->
  (forall e, raises_exactly ds (h e)) ->
  raises_exactly ds (try_ m [([c'], h)]).
Proof.
  intros Hm Hsub Hh. destruct m as [a|e]; simpl; [exact I|].
  simpl in Hm. rewrite forallb_forall in Hsub.
  unfold isinstance. rewrite (Hsub _ Hm). simpl. apply Hh.
Qed.

Lemma raises_exactly_map_res (A B : Type) (cs : list exn_class)
    (f : A -> res B) (l : list A) :
  (forall x, raises_exactly cs (f x)) -> raises_exactly cs (map_res f l).
Proof.
  intro Hf. induction l as [|x l IH]; simpl; [exact I|].
  apply raises_exactly_bind; [apply Hf|]. intro y.
  apply raises_exactly_bind; [exact IH|]. intro ys. exact I.
Qed.

Ltac raising :=
  repeat first
    [ exact I
    | apply raises_exactly_raise; simpl; tauto
    | match goal with
      | |- raises_exactly _ (if ?b then _ else _) => destruct b
      | |- raises_exactly _ (bind _ _) =>
          apply raises_exactly_bind; [|intro]
      | |- raises_exactly _ (match ?x with _ => _ end) => destruct x
      | |- raises_exactly _ (let '(_, _) := ?x in _) => destruct x
      end ].

Lemma parse_octet_raises (s : string) :
  raises_exactly [ValueError] (_parse_octet s).
Proof.
  unfold _parse_octet. raising.
Qed.

Lemma v4_int_raises (s : string) :
  raises_exactly [AddressValueError] (v4_int_from_string s).
Proof.
  unfold v4_int_from_string. raising.
  apply raises_exactly_rewrap with (cs := [ValueError]);
    [|reflexivity|intro; raising].
  apply raises_exactly_bind; [|intro; exact I].
  apply raises_exactly_map_res. apply parse_octet_raises.
Qed.

Lemma IPv4Address_raises (s : string) :
  raises_exactly [AddressValueError] (IPv4Address s).
Proof.
  unfold IPv4Address. raising. apply v4_int_raises.
Qed.

Lemma parse_hextet_raises (s : string) :
  raises_exactly [ValueError] (_parse_hextet s).
Proof.
  unfold _parse_hextet. raising.
Qed.

Lemma shift_in_raises (parts : list string) :
  forall n, raises_exactly [ValueError] (shift_in parts n).
Proof.
  induction parts as [|p parts IH]; intro n; simpl; [exact I|].
  apply raises_exactly_bind; [apply parse_hextet_raises|]. intro h. apply IH.
Qed.

Lemma find_skip_raises (parts : list string) :
  forall i last skip,
    raises_exactly [AddressValueError] (find_skip parts i last skip).
Proof.
  induction parts as [|p parts IH]; intros i last skip; simpl; [exact I|].
  destruct (_ && _); [|apply IH].
  destruct skip; [raising|apply IH].
Qed.

Lemma v6_int_raises (s : string) :
  raises_exactly [AddressValueError] (v6_int_from_string s).
Proof.
  unfold v6_int_from_string.
  destruct (String.eqb s ""); [raising|].
  cbv zeta.
  destruct (length (split ":" s) <? 3)%nat; [raising|].
  apply raises_exactly_bind.
  { destruct (contains "." _); [|exact I].
    apply raises_exactly_bind; [|intro; exact I].
    apply raises_exactly_rewrap with (cs := [AddressValueError]);
      [apply IPv4Address_raises|reflexivity|intro; raising]. }
  intro parts.
  destruct (_ <? length parts)%nat; [raising|].
  apply raises_exactly_bind; [apply find_skip_raises|]. intro skip.
  apply raises_exactly_bind.
  { destruct skip; raising. }
  intros [[hi lo] skipped].
  apply raises_exactly_rewrap with (cs := [ValueError]);
    [|reflexivity|intro; raising].
  apply raises_exactly_bind; [apply shift_in_raises|]. intro n.
  apply shift_in_raises.
Qed.

Lemma split_scope_raises (s : string) :
  raises_exactly [AddressValueError] (_split_scope_id s).
Proof.
  unfold _split_scope_id. raising.
Qed.

Lemma IPv6Address_raises (s : string) :
  raises_exactly [AddressValueError] (IPv6Address s).
Proof.
  unfold IPv6Address. destruct (contains "/" s); [raising|].
  apply raises_exactly_bind; [apply split_scope_raises|].
  intros [addr scope].
  apply raises_exactly_bind; [apply v6_int_raises|]. intro n. exact I.
Qed.

(** The two attempts of [ip_address] and of [ip_network]. *)
Lemma attempt (A : Type) (m : res A) :
  raises_exactly [AddressValueError; NetmaskValueError] m ->
  try_ (a <- m ;; Ok (Some a))
    [ ([AddressValueError; NetmaskValueError], fun _ => Ok None) ]
  = match m with
    | Ok a => Ok (Some a)
    | Raise _ => Ok None
    end.
Proof.
  destruct m as [a|[cls msg]]; simpl; [reflexivity|].
  intros [<-|[<-|[]]]; reflexivity.
Qed.

(** [ip_address] returns the address of the first constructor that accepts
    the text, or raises its own [ValueError]. *)
Lemma ip_address_cases (text : string) :
  ip_address text
  = match IPv4Address text with
    | Ok a => Ok a
    | Raise _ =>
        match IPv6Address text with
        | Ok a => Ok a
        | Raise _ => Raise (no_address text)
        end
    end.
Proof.
  unfold ip_address.
  rewrite !attempt.
  - destruct (IPv4Address text); [reflexivity|].
    destruct (IPv6Address text); reflexivity.
  - apply raises_exactly_weaken with (cs := [AddressValueError]);
      [intros c [<-|[]]; simpl; auto|apply IPv6Address_raises].
  - apply raises_exactly_weaken with (cs := [AddressValueError]);
      [intros c [<-|[]]; simpl; auto|apply IPv4Address_raises].
Qed.

Lemma ip_address_raise (text : string) (e : exn) :
  ip_address text = Raise e -> e = no_address text.
Proof.
  rewrite ip_address_cases.
  destruct (IPv4Address text); [discriminate|].
  destruct (IPv6Address text); [discriminate|].
  intro H. injection H as <-. reflexivity.
Qed.

Lemma prefix_from_ip_int_raises (v : version) (n : Z) :
  raises_exactly [ValueError] (_prefix_from_ip_int v n).
Proof.
  unfold _prefix_from_ip_int. raising.
Qed.

Lemma prefix_from_prefix_string_raises (v : version) (s : string) :
  raises_exactly [NetmaskValueError] (_prefix_from_prefix_string v s).
Proof.
  unfold _prefix_from_prefix_string, _report_invalid_netmask. raising.
Qed.

Lemma prefix_from_ip_string_raises (s : string) :
  raises_exactly [NetmaskValueError] (_prefix_from_ip_string s).
Proof.
  unfold _prefix_from_ip_string, _report_invalid_netmask.
  apply raises_exactly_bind.
  { apply raises_exactly_rewrap with (cs := [AddressValueError]);
      [apply v4_int_raises|reflexivity|intro; raising]. }
  intro n.
  pose proof (prefix_from_ip_int_raises V4 n) as H.
  destruct (_prefix_from_ip_int V4 n) as [p|[cls msg]]; [exact I|].
  simpl in H. destruct H as [<-|[]].
  change (isinstance {| exn_cls := ValueError; exn_msg := msg |} ValueError)
    with true. cbv iota.
  apply raises_exactly_rewrap with (cs := [ValueError]);
    [apply prefix_from_ip_int_raises|reflexivity|intro; raising].
Qed.

Lemma make_netmask_raises (v : version) (s : string) :
  raises_exactly [NetmaskValueError] (_make_netmask v s).
Proof.
  destruct v; simpl.
  - apply raises_exactly_rewrap with (cs := [NetmaskValueError]);
      [apply prefix_from_prefix_string_raises|reflexivity|].
    intro. apply prefix_from_ip_string_raises.
  - apply prefix_from_prefix_string_raises.
Qed.

Lemma Network_raises (v : version) (text : string) :
  raises_exactly [AddressValueError; NetmaskValueError] (Network v text).
Proof.
  unfold Network.
  apply raises_exactly_bind.
  { unfold _split_addr_prefix.
    destruct (split "/" text) as [|a [|m [|x rest]]]; raising. }
  intros [addr mask].
  apply raises_exactly_bind.
  { apply raises_exactly_weaken with (cs := [AddressValueError]);
      [intros c [<-|[]]; simpl; auto|].
    destruct v; [apply IPv4Address_raises|apply IPv6Address_raises]. }
  intro a.
  apply raises_exactly_bind.
  { destruct mask as [m|]; [|exact I].
    apply raises_exactly_weaken with (cs := [NetmaskValueError]);
      [intros c [<-|[]]; simpl; auto|apply make_netmask_raises]. }
  intro p. cbv zeta. destruct (negb _); exact I.
Qed.

(** [ip_network] returns the network of the first constructor that accepts
    the text, or raises its own [ValueError]. *)
Lemma ip_network_cases (text : string) :
  ip_network text
  = match Network V4 text with
    | Ok n => Ok n
    | Raise _ =>
        match Network V6 text with
        | Ok n => Ok n
        | Raise _ => Raise (no_network text)
        end
    end.
Proof.
  unfold ip_network.
  rewrite !attempt by apply Network_raises.
  destruct (Network V4 text); [reflexivity|].
  destruct (Network V6 text); reflexivity.
Qed.

Lemma ip_network_raise (text : string) (e : exn) :
  ip_network text = Raise e -> e = no_network text.
Proof.
  rewrite ip_network_cases.
  destruct (Network V4 text); [discriminate|].
  destruct (Network V6 text); [discriminate|].
  intro H. injection H as <-. reflexivity.
Qed.

End ParseFacts.

Lemma validate_ip_outcome (text : string) :
  (is_address text /\ validate_ip text = Ok true)
  \/ (~ is_address text /\ validate_ip text = Raise (no_address text)).
Proof.
  unfold validate_ip, is_address.
  destruct (ipaddress.ip_address text) as [a|e] eqn:E; simpl.
  - left. eauto.
  - right. rewrite (ParseFacts.ip_address_raise _ _ E).
    split; [|reflexivity]. intros [a Ha]. discriminate.
Qed.

(** X7. [validate_ip] answers [True] for an address and raises the
    [ValueError] of [ip_address] for any other text; it never answers
    [False].  So the loop of [main] over the literal targets either keeps
    them all, printing nothing, or stops at the first one that is no address
    by raising; its warning is never printed. *)
Theorem literal_targets_outcome (targets : list string) :
  (forall text,
     validate_ip text = Ok true \/ validate_ip text = Raise (no_address text))
  /\ forall ip_list out,
       (Forall is_address targets
        /\ main_targets targets ip_list out
           = Ok ((ip_list ++ targets)%list, out))
       \/ (exists pre t post,
             targets = (pre ++ t :: post)%list
             /\ Forall is_address pre
             /\ ~ is_address t
             /\ main_targets targets ip_list out = Raise (no_address t)).
Proof.
  split.
  { intro text. destruct (validate_ip_outcome text) as [[_ H]|[_ H]]; auto. }
  induction targets as [|t rest IH]; intros ip_list out.
  - left. split; [constructor|]. simpl. rewrite app_nil_r. reflexivity.
  - simpl.
    destruct (validate_ip_outcome t) as [[Ht ->]|[Ht ->]]; simpl.
    + destruct (IH (ip_list ++ [t])%list out)
        as [[Hall ->]|(pre & t' & post & -> & Hpre & Ht' & ->)].
      * left. split; [constructor; assumption|].
        rewrite <- app_assoc. reflexivity.
      * right. exists (t :: pre), t', post.
        repeat split; try assumption. constructor; assumption.
    + right. exists [], t, rest. repeat split; [constructor|assumption].
Qed.

(** ** The report, outcome by outcome *)

Module ReportOutcomes.
Import ipaddress.

Lemma map_res_all (A B : Type) (f : A -> res B) (l : list A) :
  Forall (fun x => exists y, f x = Ok y) l ->
  exists ys, map_res f l = Ok ys /\ Forall2 (fun x y => f x = Ok y) l ys.
Proof.
  induction 1 as [|x l [y Hy] _ (ys & Hys & Hall)]; simpl.
  - exists []. split; [reflexivity|constructor].
  - exists (y :: ys). rewrite Hy, Hys. split; [reflexivity|].
    constructor; assumption.
Qed.

Lemma map_res_first_raise (A B : Type) (f : A -> res B) (pre post : list A)
    (x : A) (e : exn) :
  Forall (fun x => exists y, f x = Ok y) pre ->
  f x = Raise e ->
  map_res f (pre ++ x :: post) = Raise e.
Proof.
  intros Hpre Hx. induction Hpre as [|z pre [y Hy] _ IH]; simpl.
  - rewrite Hx. reflexivity.
  - rewrite Hy, IH. reflexivity.
Qed.

Lemma same_version_all (v : version) (ks : list address) :
  Forall (fun a => addr_version a = v) ks -> same_version ks = true.
Proof.
  intros H. destruct H as [|a ks Ha Hks]; simpl; [reflexivity|].
  apply forallb_forall. intros b Hb. rewrite Forall_forall in Hks.
  rewrite Ha, (Hks b Hb). destruct v; reflexivity.
Qed.

Lemma version_eqb_eq (v w : version) : version_eqb v w = true -> v = w.
Proof.
  destruct v, w; simpl; congruence.
Qed.

Lemma same_version_mixed (ks : list address) (a b : address) :
  In a ks -> In b ks -> addr_version a <> addr_version b ->
  same_version ks = false.
Proof.
  intros Ha Hb Hab.
  destruct (same_version ks) eqn:E; [|reflexivity].
  exfalso. apply Hab.
  destruct ks as [|c ks]; [contradiction|]. simpl in E.
  rewrite forallb_forall in E.
  assert (Hc : forall x, In x (c :: ks) -> addr_version c = addr_version x).
  { intros x [<-|Hx]; [reflexivity|]. apply version_eqb_eq. auto. }
  rewrite <- (Hc a Ha), <- (Hc b Hb). reflexivity.
Qed.

Lemma rows_length (show_details : bool) (items : list (string * result)) :
  length (flat_map (row show_details) items)
  = (length items + detail_lines show_details items)%nat.
Proof.
  unfold detail_lines.
  induction items as [|[k r] items IH]; simpl.
  - destruct show_details; reflexivity.
  - unfold has_error at 1. simpl.
    rewrite length_app, IH.
    destruct (error r), show_details; simpl; lia.
Qed.

Lemma detail_lines_perm (show_details : bool)
    (items results : list (string * result)) :
  Permutation items results ->
  (length items + detail_lines show_details items
   = length results + detail_lines show_details results)%nat.
Proof.
  intro H. rewrite <- !rows_length.
  apply Permutation_length. apply Permutation_flat_map. exact H.
Qed.

Lemma keys_of_results (results : dict) (P : string -> Prop) :
  Forall P (keys results) -> Forall (fun item => P (fst item)) results.
Proof.
  unfold keys. rewrite Forall_map. auto.
Qed.

End ReportOutcomes.

(** X8. A snapshot whose keys are addresses of one version is always
    reported: the header, the rule, one row for each entry, with a line of
    detail for each entry that has a diagnostic when details are asked for,
    and the summary.  An empty snapshot gives one line. *)
Theorem one_version_is_always_reported (v : ipaddress.version) (results : dict)
    (show_details : bool) :
  Forall (is_address_of v) (keys results) ->
  exists printed,
    print_results results show_details = Ok printed
    /\ length printed
       = match results with
         | [] => 1%nat
         | _ =>
             (3 + length results + detail_lines show_details results)%nat
         end.
Proof.
  intro Hkeys.
  destruct results as [|item rest]; [exists ["No results to display"]; auto|].
  set (results := item :: rest) in *.
  assert (Hsorted : exists items, sorted_items results = Ok items).
  { unfold sorted_items.
    apply ReportOutcomes.keys_of_results in Hkeys.
    destruct (ReportOutcomes.map_res_all _ _
                (fun item => ipaddress.ip_address (fst item)) results)
      as (ks & Hks & Hall).
    { revert Hkeys. apply Forall_impl. intros x (a & Ha & _). eauto. }
    rewrite Hks. simpl.
    rewrite (ReportOutcomes.same_version_all v); [eauto|].
    clear Hks. induction Hall as [|x a l ks Hx Hall IH]; constructor.
    - inversion Hkeys as [|? ? (a' & Ha' & Hv) _]; subst. congruence.
    - apply IH. inversion Hkeys; assumption. }
  destruct Hsorted as [items Hitems].
  assert (Hp : print_results results show_details
               = Ok (header :: repeat_string "-" 65
                     :: (flat_map (row show_details) items
                         ++ [summary results])%list)).
  { unfold print_results, results. fold results. rewrite Hitems. reflexivity. }
  eexists. split; [exact Hp|].
  destruct (ReportFacts.sorted_items_sorted _ _ Hitems) as [Hperm _].
  cbn [length]. rewrite length_app, ReportOutcomes.rows_length.
  rewrite (ReportOutcomes.detail_lines_perm _ _ _ Hperm). simpl. lia.
Qed.

Lemma one_version_witness :
  Forall (is_address_of ipaddress.V4)
    (keys (two_hosts "2024-05-01T10:00:00.1" "2024-05-01T10:00:01.2"
             "64 bytes" "Host unreachable"))
  /\ exists printed,
       print_results
         (two_hosts "2024-05-01T10:00:00.1" "2024-05-01T10:00:01.2"
            "64 bytes" "Host unreachable") true = Ok printed
       /\ length printed = 6%nat.
Proof.
  assert (H : Forall (is_address_of ipaddress.V4)
                (keys (two_hosts "2024-05-01T10:00:00.1"
                         "2024-05-01T10:00:01.2" "64 bytes"
                         "Host unreachable"))).
  { repeat constructor; eexists; split; vm_compute; reflexivity. }
  split; [exact H|].
  exact (one_version_is_always_reported ipaddress.V4 _ true H).
Defined.

(** X9. A snapshot that holds addresses of both versions cannot be
    reported: sorting its items compares an IPv4 with an IPv6 address, and
    [print_results] raises a [TypeError] before it prints anything. *)
Theorem two_versions_cannot_be_reported (results : dict)
    (show_details : bool) (k1 k2 : string) (a1 a2 : ipaddress.address) :
  Forall is_address (keys results) ->
  In k1 (keys results) -> In k2 (keys results) ->
  ipaddress.ip_address k1 = Ok a1 -> ipaddress.ip_address k2 = Ok a2 ->
  ipaddress.addr_version a1 <> ipaddress.addr_version a2 ->
  exists msg,
    print_results results show_details = Raise (mk_exn TypeError msg).
Proof.
  intros Hkeys H1 H2 Ha1 Ha2 Hv.
  destruct results as [|item rest]; [contradiction|].
  set (results := item :: rest) in *.
  unfold print_results, results. fold results. unfold sorted_items.
  apply ReportOutcomes.keys_of_results in Hkeys.
  destruct (ReportOutcomes.map_res_all _ _
              (fun item => ipaddress.ip_address (fst item)) results Hkeys)
    as (ks & Hks & Hall).
  rewrite Hks. simpl.
  assert (Hin : forall k a, In k (keys results) -> ipaddress.ip_address k = Ok a ->
                            In a ks).
  { clear - Hall. induction Hall as [|x a l ks Hx Hall IH]; simpl.
    - contradiction.
    - intros k a' [<-|Hk] Ha'; [left; congruence|right; eauto]. }
  rewrite (ReportOutcomes.same_version_mixed ks a1 a2) by eauto.
  eexists. reflexivity.
Qed.

Lemma two_versions_witness :
  Forall is_address (keys two_versions)
  /\ In "10.0.0.5" (keys two_versions)
  /\ In "::1" (keys two_versions)
  /\ ipaddress.ip_address "10.0.0.5"
     = Ok (ipaddress.of_int ipaddress.V4 167772165)
  /\ ipaddress.ip_address "::1" = Ok (ipaddress.of_int ipaddress.V6 1)
  /\ ipaddress.V4 <> ipaddress.V6
  /\ exists msg,
       print_results two_versions false = Raise (mk_exn TypeError msg).
Proof.
  assert (H1 : Forall is_address (keys two_versions))
    by (repeat constructor; eexists; vm_compute; reflexivity).
  assert (H2 : In "10.0.0.5" (keys two_versions)) by (left; reflexivity).
  assert (H3 : In "::1" (keys two_versions))
    by (right; left; reflexivity).
  assert (H4 : ipaddress.ip_address "10.0.0.5"
               = Ok (ipaddress.of_int ipaddress.V4 167772165))
    by (vm_compute; reflexivity).
  assert (H5 : ipaddress.ip_address "::1"
               = Ok (ipaddress.of_int ipaddress.V6 1))
    by (vm_compute; reflexivity).
  assert (H6 : ipaddress.V4 <> ipaddress.V6) by discriminate.
  repeat (split; [assumption|]).
  exact (two_versions_cannot_be_reported two_versions false
           "10.0.0.5" "::1" _ _ H1 H2 H3 H4 H5 H6).
Defined.

(** X10. A snapshot with a key that is no address cannot be reported
    either: [print_results] raises the [ValueError] of [ip_address] for the
    first such key, before it prints anything. *)
Theorem a_key_that_is_no_address (pre post : dict) (k : string) (r : result)
    (show_details : bool) :
  Forall is_address (keys pre) ->
  ~ is_address k ->
  print_results (pre ++ (k, r) :: post)%list show_details
  = Raise (no_address k).
Proof.
  intros Hpre Hk.
  assert (Hraise : ipaddress.ip_address k = Raise (no_address k)).
  { destruct (ipaddress.ip_address k) as [a|e] eqn:E.
    - exfalso. apply Hk. exists a. exact E.
    - rewrite (ParseFacts.ip_address_raise _ _ E). reflexivity. }
  assert (Hs : sorted_items (pre ++ (k, r) :: post)%list
               = Raise (no_address k)).
  { unfold sorted_items.
    rewrite (ReportOutcomes.map_res_first_raise _ _
               (fun item => ipaddress.ip_address (fst item)) pre post (k, r)
               (no_address k)); [reflexivity| |exact Hraise].
    apply ReportOutcomes.keys_of_results in Hpre. exact Hpre. }
  unfold print_results. rewrite Hs.
  destruct (pre ++ (k, r) :: post)%list eqn:E; [|reflexivity].
  destruct pre; discriminate.
Qed.

Lemma a_key_that_is_no_address_witness :
  Forall is_address (keys [("10.0.0.5", zero_entry)])
  /\ ~ is_address "gateway"
  /\ print_results with_a_name false = Raise (no_address "gateway").
Proof.
  assert (H1 : Forall is_address (keys [("10.0.0.5", zero_entry)]))
    by (repeat constructor; eexists; vm_compute; reflexivity).
  assert (H2 : ~ is_address "gateway")
    by (intros [a H]; vm_compute in H; discriminate).
  split; [exact H1|]. split; [exact H2|].
  exact (a_key_that_is_no_address [("10.0.0.5", zero_entry)] []
           "gateway" (snd (nth 1 with_a_name ("", zero_entry))) false H1 H2).
Defined.
